(** * Veyon, Windows platform plugin: file ownership and group permissions

    A shallow embedding of [WindowsFilesystemFunctions.cpp]
    (fileOwnerGroup, setFileOwnerGroup, setFileOwnerGroupPermissions).

    The three functions are sequences of calls into the Win32 security API.
    Each is embedded as a program over an explicit signature of those
    calls: a call node carries the arguments the C++ code passes, and its
    continuation receives what the call hands back (return value and
    out-parameters).  A backend interprets the calls over a world; running a
    program yields its return value, the final world and the list of calls
    made with their answers. *)

From stdpp Require Import base gmap strings list fin_maps.
From Stdlib Require Import ZArith Lia.

Local Open Scope string_scope.
Local Open Scope Z_scope.

(** ** Win32 data *)

Module Win32.

Definition DWORD := Z.
(** [BOOL] is an [int]: zero is FALSE, anything else is TRUE. *)
Definition BOOL := Z.
(** Pointers to buffers owned by the security subsystem are addresses;
    [nullptr] is 0. *)
Definition PSID := Z.
Definition PSECURITY_DESCRIPTOR := Z.
Definition PACL := Z.
Definition HLOCAL := Z.
Definition nullptr : Z := 0.

(** Values as in the Windows SDK headers.  winerror.h: *)
Definition ERROR_SUCCESS : DWORD := 0.
Definition ERROR_FILE_NOT_FOUND : DWORD := 2.
Definition ERROR_ACCESS_DENIED : DWORD := 5.
Definition ERROR_INVALID_PARAMETER : DWORD := 87.

(** winnt.h: *)
Definition OWNER_SECURITY_INFORMATION : DWORD := 0x1.
Definition DACL_SECURITY_INFORMATION : DWORD := 0x4.
Definition GENERIC_READ : DWORD := 0x80000000.
Definition GENERIC_WRITE : DWORD := 0x40000000.
Definition GENERIC_EXECUTE : DWORD := 0x20000000.
Definition GENERIC_ALL : DWORD := 0x10000000.
Definition SECURITY_MAX_SID_SIZE : DWORD := 68.
Definition MAX_PATH : DWORD := 260.
Definition SECURITY_NT_AUTHORITY : list Z := [0; 0; 0; 0; 0; 5].
Definition SECURITY_BUILTIN_DOMAIN_RID : DWORD := 0x20.
Definition DOMAIN_ALIAS_RID_ADMINS : DWORD := 0x220.
Definition SE_TAKE_OWNERSHIP_NAME : string := "SeTakeOwnershipPrivilege".
Definition NO_INHERITANCE : DWORD := 0.

(** A SID as it lies in a caller-supplied buffer. *)
Record SID := mkSID {
  IdentifierAuthority : list Z;
  SubAuthority : list Z
}.

(** accctrl.h: the enumerators this file meets; the first constructor of
    each enumeration is its zero. *)
Inductive SE_OBJECT_TYPE := SE_UNKNOWN_OBJECT_TYPE | SE_FILE_OBJECT.
Inductive ACCESS_MODE :=
  NOT_USED_ACCESS | GRANT_ACCESS | SET_ACCESS | DENY_ACCESS | REVOKE_ACCESS.
Inductive MULTIPLE_TRUSTEE_OPERATION :=
  NO_MULTIPLE_TRUSTEE | TRUSTEE_IS_IMPERSONATE.
Inductive TRUSTEE_FORM := TRUSTEE_IS_SID | TRUSTEE_IS_NAME.
Inductive TRUSTEE_TYPE :=
  TRUSTEE_IS_UNKNOWN | TRUSTEE_IS_USER | TRUSTEE_IS_GROUP.

Record TRUSTEE := mkTRUSTEE {
  pMultipleTrustee : Z;
  MultipleTrusteeOperation : MULTIPLE_TRUSTEE_OPERATION;
  TrusteeForm : TRUSTEE_FORM;
  TrusteeType : TRUSTEE_TYPE;
  ptstrName : Z
}.

Record EXPLICIT_ACCESS := mkEXPLICIT_ACCESS {
  grfAccessPermissions : DWORD;
  grfAccessMode : ACCESS_MODE;
  grfInheritance : DWORD;
  Trustee : TRUSTEE
}.

(** What [ZeroMemory] leaves in an [EXPLICIT_ACCESS]. *)
Definition zeroed : EXPLICIT_ACCESS :=
  mkEXPLICIT_ACCESS 0 NOT_USED_ACCESS 0
    (mkTRUSTEE nullptr NO_MULTIPLE_TRUSTEE TRUSTEE_IS_SID TRUSTEE_IS_UNKNOWN nullptr).

#[global] Instance SID_eq_dec : EqDecision SID.
Proof. solve_decision. Defined.
#[global] Instance SE_OBJECT_TYPE_eq_dec : EqDecision SE_OBJECT_TYPE.
Proof. solve_decision. Defined.
#[global] Instance ACCESS_MODE_eq_dec : EqDecision ACCESS_MODE.
Proof. solve_decision. Defined.
#[global] Instance MTO_eq_dec : EqDecision MULTIPLE_TRUSTEE_OPERATION.
Proof. solve_decision. Defined.
#[global] Instance TRUSTEE_FORM_eq_dec : EqDecision TRUSTEE_FORM.
Proof. solve_decision. Defined.
#[global] Instance TRUSTEE_TYPE_eq_dec : EqDecision TRUSTEE_TYPE.
Proof. solve_decision. Defined.
#[global] Instance TRUSTEE_eq_dec : EqDecision TRUSTEE.
Proof. solve_decision. Defined.
#[global] Instance EXPLICIT_ACCESS_eq_dec : EqDecision EXPLICIT_ACCESS.
Proof. solve_decision. Defined.

End Win32.
Import Win32.

(** ** Qt data *)

Module Qt.

(** Names and paths.  A null [QString()] and an empty one compare equal,
    both are the empty string here. *)
Definition QString := string.
Definition QString_null : QString := "".

(** [QFile::Permissions] is a flag word (values of qfiledevice.h). *)
Definition Permissions := Z.
Definition ReadGroup : Permissions := 0x0040.
Definition WriteGroup : Permissions := 0x0020.
Definition ExeGroup : Permissions := 0x0010.

(** An argument streamed into [qCritical()]. *)
Inductive LogArg := LStr (s : string) | LNum (z : Z).

#[global] Instance LogArg_eq_dec : EqDecision LogArg.
Proof. solve_decision. Defined.

End Qt.
Import Qt.

(** ** The calls the three functions make *)

(** A call node lists the arguments the code supplies; the index is what the
    code receives: the return value, then the out-parameters it passed
    non-null.  Arguments that are [nullptr] at every call site and
    out-parameters the code never reads are left out.  [enablePrivilege] is
    [WindowsCoreFunctions::enablePrivilege], whose body is not among the
    sources and whose result the code does not read; [qCritical] is one
    line streamed to the diagnostic sink. *)
Inductive Win32Call : Type -> Type :=
| GetNamedSecurityInfo (pObjectName : string) (ObjectType : SE_OBJECT_TYPE)
    (SecurityInfo : DWORD)
  : Win32Call (DWORD * PSID * PSECURITY_DESCRIPTOR)
    (** result, [*ppsidOwner], [*ppSecurityDescriptor] *)
| LookupAccountSid (Sid : PSID) (cchName : DWORD) (cchReferencedDomainName : DWORD)
  : Win32Call (BOOL * option string)
    (** result, and the string written to [Name] if one was written *)
| LookupAccountName (lpAccountName : string) (cbSid : DWORD)
    (cchReferencedDomainName : DWORD)
  : Win32Call (BOOL * SID)
    (** result, and the contents of the [Sid] buffer after the call *)
| SetNamedSecurityInfo (pObjectName : string) (ObjectType : SE_OBJECT_TYPE)
    (SecurityInfo : DWORD) (psidOwner : option SID) (pDacl : PACL)
  : Win32Call DWORD
| AllocateAndInitializeSid (pIdentifierAuthority : list Z)
    (nSubAuthorityCount : Z) (nSubAuthority : list DWORD)
  : Win32Call (BOOL * PSID)
| SetEntriesInAcl (cCountOfExplicitEntries : Z)
    (pListOfExplicitEntries : list EXPLICIT_ACCESS) (OldAcl : PACL)
  : Win32Call (DWORD * PACL)
| FreeSid (pSid : PSID) : Win32Call unit
| LocalFree (hMem : HLOCAL) : Win32Call unit
| enablePrivilege (privilegeName : string) (enable : bool) : Win32Call bool
| qCritical (message : list LogArg) : Win32Call unit.

(** A call together with its answer, as it appears in a run. *)
Inductive Event :=
| EGetNamedSecurityInfo (pObjectName : string) (ObjectType : SE_OBJECT_TYPE)
    (SecurityInfo : DWORD) (result : DWORD) (psidOwner : PSID)
    (pSecurityDescriptor : PSECURITY_DESCRIPTOR)
| ELookupAccountSid (Sid : PSID) (cchName cchReferencedDomainName : DWORD)
    (result : BOOL) (Name : option string)
| ELookupAccountName (lpAccountName : string)
    (cbSid cchReferencedDomainName : DWORD) (result : BOOL) (Sid : SID)
| ESetNamedSecurityInfo (pObjectName : string) (ObjectType : SE_OBJECT_TYPE)
    (SecurityInfo : DWORD) (psidOwner : option SID) (pDacl : PACL)
    (result : DWORD)
| EAllocateAndInitializeSid (pIdentifierAuthority : list Z)
    (nSubAuthorityCount : Z) (nSubAuthority : list DWORD)
    (result : BOOL) (pSid : PSID)
| ESetEntriesInAcl (cCountOfExplicitEntries : Z)
    (pListOfExplicitEntries : list EXPLICIT_ACCESS) (OldAcl : PACL)
    (result : DWORD) (NewAcl : PACL)
| EFreeSid (pSid : PSID)
| ELocalFree (hMem : HLOCAL)
| EenablePrivilege (privilegeName : string) (enable : bool) (result : bool)
| EqCritical (message : list LogArg).

#[global] Instance Event_eq_dec : EqDecision Event.
Proof. solve_decision. Defined.

Definition event_of {R} (c : Win32Call R) : R -> Event :=
  match c in Win32Call R return R -> Event with
  | GetNamedSecurityInfo n t i => fun '(r, o, d) => EGetNamedSecurityInfo n t i r o d
  | LookupAccountSid s cn cd => fun '(r, nm) => ELookupAccountSid s cn cd r nm
  | LookupAccountName a cs cd => fun '(r, sid) => ELookupAccountName a cs cd r sid
  | SetNamedSecurityInfo n t i o d => fun r => ESetNamedSecurityInfo n t i o d r
  | AllocateAndInitializeSid a n subs => fun '(r, p) => EAllocateAndInitializeSid a n subs r p
  | SetEntriesInAcl n l old => fun '(r, acl) => ESetEntriesInAcl n l old r acl
  | FreeSid p => fun _ => EFreeSid p
  | LocalFree h => fun _ => ELocalFree h
  | enablePrivilege n e => fun r => EenablePrivilege n e r
  | qCritical m => fun _ => EqCritical m
  end.

(** ** Programs *)

Inductive prog (A : Type) : Type :=
| Ret (a : A)
| Call {R : Type} (c : Win32Call R) (k : R -> prog A).
Arguments Ret {A} a.
Arguments Call {A R} c k.

Fixpoint bind {A B} (p : prog A) (f : A -> prog B) : prog B :=
  match p with
  | Ret a => f a
  | Call c k => Call c (fun r => bind (k r) f)
  end.

Definition call {R} (c : Win32Call R) : prog R := Call c Ret.

#[global] Instance prog_ret : MRet prog := @Ret.
#[global] Instance prog_bind : MBind prog := fun A B f p => bind p f.

(** A backend answers every call and moves the world on. *)
Class Backend (World : Type) :=
  handle : forall R, Win32Call R -> World -> R * World.
Arguments handle {World _ R} c w.

Record Outcome (World A : Type) := mkOutcome {
  retval : A;
  final : World;
  trace : list Event
}.
Arguments mkOutcome {World A}.
Arguments retval {World A}.
Arguments final {World A}.
Arguments trace {World A}.

Fixpoint run `{Backend World} {A} (p : prog A) (w : World) : Outcome World A :=
  match p with
  | Ret a => mkOutcome a w []
  | Call c k =>
      let '(r, w1) := handle c w in
      let o := run (k r) w1 in
      mkOutcome (retval o) (final o) (event_of c r :: trace o)
  end.

(** ** WindowsFilesystemFunctions.cpp *)

Module WindowsFilesystemFunctions.

(** [Q_FUNC_INFO] expands to the compiler's spelling of the enclosing
    function's signature. *)
Definition Q_FUNC_INFO_fileOwnerGroup : LogArg :=
  LStr "QString WindowsFilesystemFunctions::fileOwnerGroup(const QString&)".
Definition Q_FUNC_INFO_setFileOwnerGroup : LogArg :=
  LStr "bool WindowsFilesystemFunctions::setFileOwnerGroup(const QString&, const QString&)".
Definition Q_FUNC_INFO_setFileOwnerGroupPermissions : LogArg :=
  LStr "bool WindowsFilesystemFunctions::setFileOwnerGroupPermissions(const QString&, QFile::Permissions)".

(** [name] stands for the local array [wchar_t name[PATH_MAX]], which the
    code does not initialise: its argument here is whatever the array holds
    when the function is entered, read up to the first NUL. *)
Definition fileOwnerGroup (name : string) (filePath : QString) : prog QString :=
  '(secInfoResult, ownerSID, securityDescriptor) ←
    call (GetNamedSecurityInfo filePath SE_FILE_OBJECT OWNER_SECURITY_INFORMATION);
  if negb (secInfoResult =? ERROR_SUCCESS) then
    call (qCritical [Q_FUNC_INFO_fileOwnerGroup;
                     LStr "GetSecurityInfo() failed:"; LNum secInfoResult]);;
    mret QString_null
  else
    let nameSize : DWORD := 0 in
    let domainLen : DWORD := 0 in
    '(lookupSidResult, written) ← call (LookupAccountSid ownerSID nameSize domainLen);
    let name := default name written in
    if negb (lookupSidResult =? ERROR_SUCCESS) then
      call (qCritical [Q_FUNC_INFO_fileOwnerGroup;
                       LStr "LookupAccountSid() failed:"; LNum lookupSidResult]);;
      mret QString_null
    else
      mret name.

Definition setFileOwnerGroup (filePath ownerGroup : QString) : prog bool :=
  let sidLen : DWORD := SECURITY_MAX_SID_SIZE in
  let domainLen : DWORD := MAX_PATH in
  '(found, ownerGroupSID) ← call (LookupAccountName ownerGroup sidLen domainLen);
  if found =? 0 then
    call (qCritical [LStr "Could not look up SID structure"]);;
    mret false
  else
    call (enablePrivilege SE_TAKE_OWNERSHIP_NAME true);;
    result ← call (SetNamedSecurityInfo filePath SE_FILE_OBJECT
                     OWNER_SECURITY_INFORMATION (Some ownerGroupSID) nullptr);
    call (enablePrivilege SE_TAKE_OWNERSHIP_NAME false);;
    (if negb (result =? ERROR_SUCCESS) then
       call (qCritical [Q_FUNC_INFO_setFileOwnerGroup;
                        LStr "SetNamedSecurityInfo() failed:"; LNum result])
     else mret tt);;
    mret (result =? ERROR_SUCCESS).

(** Truth value of [permissions & flag]. *)
Definition testFlag (permissions flag : Permissions) : bool :=
  negb (Z.land permissions flag =? 0).

(** Lines 150-181: the two-element [EXPLICIT_ACCESS] array. *)
Definition NUM_ACES : Z := 2.

Definition ownerAccessPermissions (permissions : Permissions) : DWORD :=
  let m : DWORD := 0 in
  let m := if testFlag permissions ReadGroup then Z.lor m GENERIC_READ else m in
  let m := if testFlag permissions WriteGroup then Z.lor m GENERIC_WRITE else m in
  let m := if testFlag permissions ExeGroup then Z.lor m GENERIC_EXECUTE else m in
  m.

Definition explicitAccess (permissions : Permissions) (ownerSID adminSID : PSID)
  : list EXPLICIT_ACCESS :=
  let ea0 := zeroed in
  let ea1 := zeroed in
  let ea0 :=
    {| grfAccessPermissions := ownerAccessPermissions permissions;
       grfAccessMode := SET_ACCESS;
       grfInheritance := NO_INHERITANCE;
       Trustee :=
         {| pMultipleTrustee := pMultipleTrustee (Trustee ea0);
            MultipleTrusteeOperation := MultipleTrusteeOperation (Trustee ea0);
            TrusteeForm := TRUSTEE_IS_SID;
            TrusteeType := TRUSTEE_IS_GROUP;
            ptstrName := ownerSID |} |} in
  let ea1 :=
    {| grfAccessPermissions := GENERIC_ALL;
       grfAccessMode := SET_ACCESS;
       grfInheritance := NO_INHERITANCE;
       Trustee :=
         {| pMultipleTrustee := pMultipleTrustee (Trustee ea1);
            MultipleTrusteeOperation := MultipleTrusteeOperation (Trustee ea1);
            TrusteeForm := TRUSTEE_IS_SID;
            TrusteeType := TRUSTEE_IS_GROUP;
            ptstrName := adminSID |} |} in
  [ea0; ea1].

Definition setFileOwnerGroupPermissions (filePath : QString)
    (permissions : Permissions) : prog bool :=
  '(secInfoResult, ownerSID, securityDescriptor) ←
    call (GetNamedSecurityInfo filePath SE_FILE_OBJECT OWNER_SECURITY_INFORMATION);
  if negb (secInfoResult =? ERROR_SUCCESS) then
    call (qCritical [Q_FUNC_INFO_setFileOwnerGroupPermissions;
                     LStr "GetSecurityInfo() failed:"; LNum secInfoResult]);;
    mret false
  else
    '(allocated, adminSID) ←
      call (AllocateAndInitializeSid SECURITY_NT_AUTHORITY 2
              [SECURITY_BUILTIN_DOMAIN_RID; DOMAIN_ALIAS_RID_ADMINS; 0; 0; 0; 0; 0; 0]);
    if allocated =? 0 then
      mret false
    else
      let ea := explicitAccess permissions ownerSID adminSID in
      '(aclResult, acl) ← call (SetEntriesInAcl NUM_ACES ea nullptr);
      if negb (aclResult =? ERROR_SUCCESS) then
        call (qCritical [Q_FUNC_INFO_setFileOwnerGroupPermissions;
                         LStr "SetEntriesInAcl() failed"]);;
        call (FreeSid adminSID);;
        mret false
      else
        result ← call (SetNamedSecurityInfo filePath SE_FILE_OBJECT
                         DACL_SECURITY_INFORMATION None acl);
        (if negb (result =? ERROR_ACCESS_DENIED) then
           call (qCritical [Q_FUNC_INFO_setFileOwnerGroupPermissions;
                            LStr "SetNamedSecurityInfo() failed:"; LNum result])
         else mret tt);;
        call (FreeSid adminSID);;
        call (LocalFree acl);;
        mret (result =? ERROR_SUCCESS).

End WindowsFilesystemFunctions.
Import WindowsFilesystemFunctions.

(** ** What a run allocates, releases and toggles *)

(** Addresses of the buffers the security subsystem allocated for the caller
    during a run: the descriptor of a successful [GetNamedSecurityInfo], the
    SID of a successful [AllocateAndInitializeSid], the ACL of a successful
    [SetEntriesInAcl]. *)
Definition allocated (e : Event) : list Z :=
  match e with
  | EGetNamedSecurityInfo _ _ _ r _ sd => if r =? ERROR_SUCCESS then [sd] else []
  | EAllocateAndInitializeSid _ _ _ r p => if r =? 0 then [] else [p]
  | ESetEntriesInAcl _ _ _ r acl => if r =? ERROR_SUCCESS then [acl] else []
  | _ => []
  end.

Definition released (e : Event) : list Z :=
  match e with
  | EFreeSid p => [p]
  | ELocalFree h => [h]
  | _ => []
  end.

Definition allocations (t : list Event) : list Z := concat (map allocated t).
Definition releases (t : list Event) : list Z := concat (map released t).

Definition occurrences (a : Z) (l : list Z) : nat :=
  length (filter (fun x => x = a) l).

(** The descriptor write. *)
Definition mutates_descriptor (e : Event) : bool :=
  match e with
  | ESetNamedSecurityInfo _ _ _ _ _ _ => true
  | _ => false
  end.

(** The descriptor write that carries the owner part. *)
Definition mutates_owner (e : Event) : bool :=
  match e with
  | ESetNamedSecurityInfo _ _ info _ _ _ =>
      negb (Z.land info OWNER_SECURITY_INFORMATION =? 0)
  | _ => false
  end.

Definition toggles_privilege (e : Event) : bool :=
  match e with
  | EenablePrivilege _ _ _ => true
  | _ => false
  end.

Definition is_diagnostic (e : Event) : bool :=
  match e with
  | EqCritical _ => true
  | _ => false
  end.

(** A step of setFileOwnerGroupPermissions that precedes the DACL write and
    reported failure. *)
Definition preparation_failed (e : Event) : bool :=
  match e with
  | EGetNamedSecurityInfo _ _ _ r _ _ => negb (r =? ERROR_SUCCESS)
  | EAllocateAndInitializeSid _ _ _ r _ => r =? 0
  | ESetEntriesInAcl _ _ _ r _ => negb (r =? ERROR_SUCCESS)
  | _ => false
  end.

(** Modelled from the spec: [WindowsCoreFunctions::enablePrivilege] is not
    among the sources.  Per the privilege scope guard of the spec, a call
    with [enable = true] enables the named privilege for the calling context
    and a call with [enable = false] disables it again; the state of the
    privilege [p] after the calls of a run, from the state [on] before. *)
Fixpoint privilege_after (p : string) (on : bool) (t : list Event) : bool :=
  match t with
  | [] => on
  | EenablePrivilege n e _ :: t' =>
      privilege_after p (if String.eqb n p then e else on) t'
  | _ :: t' => privilege_after p on t'
  end.

Definition enables (p : string) (e : Event) : bool :=
  match e with
  | EenablePrivilege n true _ => String.eqb n p
  | _ => false
  end.

Definition disables (p : string) (e : Event) : bool :=
  match e with
  | EenablePrivilege n false _ => String.eqb n p
  | _ => false
  end.

(** A backend leaves the observation [obs] alone at every step whose event
    [touches] does not single out. *)
Definition frame `{Backend World} {Obs} (obs : World -> Obs)
    (touches : Event -> bool) : Prop :=
  forall R (c : Win32Call R) (w : World),
    touches (event_of c (handle c w).1) = false ->
    obs (handle c w).2 = obs w.

(** What fileOwnerGroup returns for [filePath] in the world [w]. *)
Definition observedOwner `{Backend World} (name : string) (filePath : QString)
    (w : World) : QString :=
  retval (run (fileOwnerGroup name filePath) w).

(** ** A reference backend *)

(** A small security subsystem that follows the documented behaviour of the
    calls: files carry a descriptor, accounts map names to SIDs, buffers
    handed to the caller live on a heap until they are freed. *)
Module Sim.

Record Account := mkAccount {
  acct_domain : string;
  acct_name : string;
  acct_sid : SID
}.

Record ACE := mkACE {
  AceMode : ACCESS_MODE;
  Mask : DWORD;
  AceSid : SID
}.

Record Descriptor := mkDescriptor {
  Owner : SID;
  Dacl : list ACE
}.

Inductive Block :=
| BSid (s : SID)
| BDescriptor (d : Descriptor)
| BAcl (aces : list ACE).

Record World := mkWorld {
  files : gmap string Descriptor;
  accounts : list Account;
  heap : gmap Z Block;
  brk : Z;
  token_user : SID;
  held : list string;
  enabled : list string;
  diagnostics : list (list LogArg)
}.

Definition set_files (f : gmap string Descriptor) (w : World) : World :=
  mkWorld f (accounts w) (heap w) (brk w) (token_user w) (held w) (enabled w)
    (diagnostics w).
Definition set_heap (h : gmap Z Block) (b : Z) (w : World) : World :=
  mkWorld (files w) (accounts w) h b (token_user w) (held w) (enabled w)
    (diagnostics w).
Definition set_enabled (e : list string) (w : World) : World :=
  mkWorld (files w) (accounts w) (heap w) (brk w) (token_user w) (held w) e
    (diagnostics w).
Definition set_diagnostics (d : list (list LogArg)) (w : World) : World :=
  mkWorld (files w) (accounts w) (heap w) (brk w) (token_user w) (held w)
    (enabled w) d.

Definition block_size : Z := 0x100.
(** The owner SID of a returned descriptor lies inside its block. *)
Definition owner_offset : Z := 20.

Definition alloc (b : Block) (w : World) : Z * World :=
  (brk w, set_heap (<[brk w := b]> (heap w)) (brk w + block_size) w).

Definition sid_at (w : World) (p : Z) : option SID :=
  match heap w !! p with
  | Some (BSid s) => Some s
  | _ =>
      match heap w !! (p - owner_offset) with
      | Some (BDescriptor d) => Some (Owner d)
      | _ => None
      end
  end.

Definition sid_size (s : SID) : Z := 8 + 4 * Z.of_nat (length (SubAuthority s)).
Definition null_sid : SID := mkSID [] [].

Definition has (info flag : DWORD) : bool := negb (Z.land info flag =? 0).

Definition ace_of (w : World) (ea : EXPLICIT_ACCESS) : option ACE :=
  match TrusteeForm (Trustee ea) with
  | TRUSTEE_IS_SID =>
      s ← sid_at w (ptstrName (Trustee ea));
      Some (mkACE (grfAccessMode ea) (grfAccessPermissions ea) s)
  | TRUSTEE_IS_NAME => None
  end.

Definition aces_at (w : World) (acl : PACL) : option (list ACE) :=
  if acl =? nullptr then Some []
  else match heap w !! acl with
       | Some (BAcl l) => Some l
       | _ => None
       end.

Definition do_GetNamedSecurityInfo (n : string) (t : SE_OBJECT_TYPE)
    (info : DWORD) (w : World) : DWORD * PSID * PSECURITY_DESCRIPTOR * World :=
  match t, files w !! n with
  | SE_FILE_OBJECT, Some d =>
      let '(a, w') := alloc (BDescriptor d) w in
      (ERROR_SUCCESS,
       if has info OWNER_SECURITY_INFORMATION then a + owner_offset else nullptr,
       a, w')
  | SE_FILE_OBJECT, None => (ERROR_FILE_NOT_FOUND, nullptr, nullptr, w)
  | _, _ => (ERROR_INVALID_PARAMETER, nullptr, nullptr, w)
  end.

(** The name is written only when both buffers have room for the string and
    its terminator. *)
Definition do_LookupAccountSid (p : PSID) (cchName cchDomain : DWORD)
    (w : World) : BOOL * option string :=
  match sid_at w p with
  | None => (0, None)
  | Some s =>
      match find (fun a => bool_decide (acct_sid a = s)) (accounts w) with
      | None => (0, None)
      | Some a =>
          if (Z.of_nat (String.length (acct_name a)) <? cchName)
             && (Z.of_nat (String.length (acct_domain a)) <? cchDomain)
          then (1, Some (acct_name a))
          else (0, None)
      end
  end.

Definition do_LookupAccountName (n : string) (cbSid cchDomain : DWORD)
    (w : World) : BOOL * SID :=
  match find (fun a => String.eqb (acct_name a) n) (accounts w) with
  | None => (0, null_sid)
  | Some a =>
      if (sid_size (acct_sid a) <=? cbSid)
         && (Z.of_nat (String.length (acct_domain a)) <? cchDomain)
      then (1, acct_sid a)
      else (0, null_sid)
  end.

(** The owner may be replaced by whoever owns the file or has the
    take-ownership privilege enabled; the DACL by the owner. *)
Definition do_SetNamedSecurityInfo (n : string) (t : SE_OBJECT_TYPE)
    (info : DWORD) (o : option SID) (dacl : PACL) (w : World) : DWORD * World :=
  match t, files w !! n with
  | SE_FILE_OBJECT, Some d =>
      let owner_ok :=
        bool_decide (token_user w = Owner d)
        || bool_decide (SE_TAKE_OWNERSHIP_NAME ∈ enabled w) in
      let dacl_ok := bool_decide (token_user w = Owner d) in
      let new_owner :=
        if has info OWNER_SECURITY_INFORMATION then o else Some (Owner d) in
      let new_dacl :=
        if has info DACL_SECURITY_INFORMATION then aces_at w dacl
        else Some (Dacl d) in
      match new_owner, new_dacl with
      | Some s, Some l =>
          if (has info OWNER_SECURITY_INFORMATION && negb owner_ok)
             || (has info DACL_SECURITY_INFORMATION && negb dacl_ok)
          then (ERROR_ACCESS_DENIED, w)
          else (ERROR_SUCCESS, set_files (<[n := mkDescriptor s l]> (files w)) w)
      | _, _ => (ERROR_INVALID_PARAMETER, w)
      end
  | SE_FILE_OBJECT, None => (ERROR_FILE_NOT_FOUND, w)
  | _, _ => (ERROR_INVALID_PARAMETER, w)
  end.

Definition do_AllocateAndInitializeSid (auth : list Z) (n : Z)
    (subs : list DWORD) (w : World) : BOOL * PSID * World :=
  if (1 <=? n) && (n <=? 8) then
    let '(a, w') := alloc (BSid (mkSID auth (take (Z.to_nat n) subs))) w in
    (1, a, w')
  else (0, nullptr, w).

Definition do_SetEntriesInAcl (n : Z) (l : list EXPLICIT_ACCESS) (old : PACL)
    (w : World) : DWORD * PACL * World :=
  match mapM (ace_of w) l, aces_at w old with
  | Some new, Some prior =>
      if n =? Z.of_nat (length l) then
        let '(a, w') := alloc (BAcl (new ++ prior)) w in
        (ERROR_SUCCESS, a, w')
      else (ERROR_INVALID_PARAMETER, nullptr, w)
  | _, _ => (ERROR_INVALID_PARAMETER, nullptr, w)
  end.

Definition do_free (p : Z) (w : World) : World :=
  set_heap (delete p (heap w)) (brk w) w.

Definition do_enablePrivilege (n : string) (e : bool) (w : World) : bool * World :=
  if bool_decide (n ∈ held w) then
    (true,
     set_enabled (if e then n :: enabled w
                  else filter (fun x => x ≠ n) (enabled w)) w)
  else (false, w).

#[global] Instance backend : Backend World := fun R c =>
  match c in Win32Call R return World -> R * World with
  | GetNamedSecurityInfo n t i => fun w =>
      let '(r, o, d, w') := do_GetNamedSecurityInfo n t i w in ((r, o, d), w')
  | LookupAccountSid s cn cd => fun w => (do_LookupAccountSid s cn cd w, w)
  | LookupAccountName a cs cd => fun w => (do_LookupAccountName a cs cd w, w)
  | SetNamedSecurityInfo n t i o d => do_SetNamedSecurityInfo n t i o d
  | AllocateAndInitializeSid a n subs => fun w =>
      let '(r, p, w') := do_AllocateAndInitializeSid a n subs w in ((r, p), w')
  | SetEntriesInAcl n l old => fun w =>
      let '(r, acl, w') := do_SetEntriesInAcl n l old w in ((r, acl), w')
  | FreeSid p => fun w => (tt, do_free p w)
  | LocalFree h => fun w => (tt, do_free h w)
  | enablePrivilege n e => do_enablePrivilege n e
  | qCritical m => fun w => (tt, set_diagnostics (diagnostics w ++ [m]) w)
  end.

(** The scenario of the spec: C:\data\report.xlsx owned by Alice. *)
Definition Alice : SID := mkSID SECURITY_NT_AUTHORITY [21; 1001].
Definition Bob : SID := mkSID SECURITY_NT_AUTHORITY [21; 1002].
Definition Administrators : SID :=
  mkSID SECURITY_NT_AUTHORITY [SECURITY_BUILTIN_DOMAIN_RID; DOMAIN_ALIAS_RID_ADMINS].

Definition report : string := "C:\data\report.xlsx".

Definition office (user : SID) : World :=
  {| files := {[ report := mkDescriptor Alice [mkACE SET_ACCESS GENERIC_ALL Alice] ]};
     accounts := [mkAccount "OFFICE" "Alice" Alice; mkAccount "OFFICE" "Bob" Bob;
                  mkAccount "BUILTIN" "Administrators" Administrators];
     heap := ∅;
     brk := 0x1000;
     token_user := user;
     held := [SE_TAKE_OWNERSHIP_NAME];
     enabled := [];
     diagnostics := [] |}.

End Sim.

(** ** The runs of the three functions *)

(** The entry setFileOwnerGroupPermissions builds for a trustee. *)
Definition entry (mask : DWORD) (trustee : PSID) : EXPLICIT_ACCESS :=
  {| grfAccessPermissions := mask;
     grfAccessMode := SET_ACCESS;
     grfInheritance := NO_INHERITANCE;
     Trustee := {| pMultipleTrustee := nullptr;
                   MultipleTrusteeOperation := NO_MULTIPLE_TRUSTEE;
                   TrusteeForm := TRUSTEE_IS_SID;
                   TrusteeType := TRUSTEE_IS_GROUP;
                   ptstrName := trustee |} |}.

Definition administrators_rids : list DWORD :=
  [SECURITY_BUILTIN_DOMAIN_RID; DOMAIN_ALIAS_RID_ADMINS; 0; 0; 0; 0; 0; 0].

Definition failure_line (who : LogArg) (what : string) (code : Z) : Event :=
  EqCritical [who; LStr what; LNum code].

(** Every run of fileOwnerGroup, whatever the backend answers. *)
Inductive QueryRun (name : string) (filePath : QString)
  : list Event -> QString -> Prop :=
| QueryRun_no_descriptor r o sd :
    r <> ERROR_SUCCESS ->
    QueryRun name filePath
      [EGetNamedSecurityInfo filePath SE_FILE_OBJECT OWNER_SECURITY_INFORMATION r o sd;
       failure_line Q_FUNC_INFO_fileOwnerGroup "GetSecurityInfo() failed:" r]
      QString_null
| QueryRun_lookup_nonzero o sd b written :
    b <> 0 ->
    QueryRun name filePath
      [EGetNamedSecurityInfo filePath SE_FILE_OBJECT OWNER_SECURITY_INFORMATION
         ERROR_SUCCESS o sd;
       ELookupAccountSid o 0 0 b written;
       failure_line Q_FUNC_INFO_fileOwnerGroup "LookupAccountSid() failed:" b]
      QString_null
| QueryRun_lookup_zero o sd written :
    QueryRun name filePath
      [EGetNamedSecurityInfo filePath SE_FILE_OBJECT OWNER_SECURITY_INFORMATION
         ERROR_SUCCESS o sd;
       ELookupAccountSid o 0 0 0 written]
      (default name written).

(** Every run of setFileOwnerGroup. *)
Inductive OwnerRun (filePath ownerGroup : QString) : list Event -> bool -> Prop :=
| OwnerRun_unresolved sid :
    OwnerRun filePath ownerGroup
      [ELookupAccountName ownerGroup SECURITY_MAX_SID_SIZE MAX_PATH 0 sid;
       EqCritical [LStr "Could not look up SID structure"]]
      false
| OwnerRun_attempted found sid on off r :
    found <> 0 ->
    OwnerRun filePath ownerGroup
      ([ELookupAccountName ownerGroup SECURITY_MAX_SID_SIZE MAX_PATH found sid;
        EenablePrivilege SE_TAKE_OWNERSHIP_NAME true on;
        ESetNamedSecurityInfo filePath SE_FILE_OBJECT OWNER_SECURITY_INFORMATION
          (Some sid) nullptr r;
        EenablePrivilege SE_TAKE_OWNERSHIP_NAME false off]
       ++ (if r =? ERROR_SUCCESS then []
           else [failure_line Q_FUNC_INFO_setFileOwnerGroup
                   "SetNamedSecurityInfo() failed:" r]))
      (r =? ERROR_SUCCESS).

(** Every run of setFileOwnerGroupPermissions. *)
Inductive PermissionsRun (filePath : QString) (permissions : Permissions)
  : list Event -> bool -> Prop :=
| PermissionsRun_no_descriptor r o sd :
    r <> ERROR_SUCCESS ->
    PermissionsRun filePath permissions
      [EGetNamedSecurityInfo filePath SE_FILE_OBJECT OWNER_SECURITY_INFORMATION r o sd;
       failure_line Q_FUNC_INFO_setFileOwnerGroupPermissions
         "GetSecurityInfo() failed:" r]
      false
| PermissionsRun_no_admin_sid o sd p :
    PermissionsRun filePath permissions
      [EGetNamedSecurityInfo filePath SE_FILE_OBJECT OWNER_SECURITY_INFORMATION
         ERROR_SUCCESS o sd;
       EAllocateAndInitializeSid SECURITY_NT_AUTHORITY 2 administrators_rids 0 p]
      false
| PermissionsRun_no_acl o sd b p r acl :
    b <> 0 -> r <> ERROR_SUCCESS ->
    PermissionsRun filePath permissions
      [EGetNamedSecurityInfo filePath SE_FILE_OBJECT OWNER_SECURITY_INFORMATION
         ERROR_SUCCESS o sd;
       EAllocateAndInitializeSid SECURITY_NT_AUTHORITY 2 administrators_rids b p;
       ESetEntriesInAcl 2
         [entry (ownerAccessPermissions permissions) o; entry GENERIC_ALL p]
         nullptr r acl;
       EqCritical [Q_FUNC_INFO_setFileOwnerGroupPermissions;
                   LStr "SetEntriesInAcl() failed"];
       EFreeSid p]
      false
| PermissionsRun_applied o sd b p acl r :
    b <> 0 ->
    PermissionsRun filePath permissions
      ([EGetNamedSecurityInfo filePath SE_FILE_OBJECT OWNER_SECURITY_INFORMATION
          ERROR_SUCCESS o sd;
        EAllocateAndInitializeSid SECURITY_NT_AUTHORITY 2 administrators_rids b p;
        ESetEntriesInAcl 2
          [entry (ownerAccessPermissions permissions) o; entry GENERIC_ALL p]
          nullptr ERROR_SUCCESS acl;
        ESetNamedSecurityInfo filePath SE_FILE_OBJECT DACL_SECURITY_INFORMATION
          None acl r]
       ++ (if r =? ERROR_ACCESS_DENIED then []
           else [failure_line Q_FUNC_INFO_setFileOwnerGroupPermissions
                   "SetNamedSecurityInfo() failed:" r])
       ++ [EFreeSid p; ELocalFree acl])
      (r =? ERROR_SUCCESS).

(** ** Further observations of a run *)

(** A descriptor write that carries the DACL part. *)
Definition mutates_dacl (e : Event) : bool :=
  match e with
  | ESetNamedSecurityInfo _ _ info _ _ _ =>
      negb (Z.land info DACL_SECURITY_INFORMATION =? 0)
  | _ => false
  end.

(** A descriptor write that the backend reported successful. *)
Definition write_succeeded (e : Event) : bool :=
  match e with
  | ESetNamedSecurityInfo _ _ _ _ _ r => r =? ERROR_SUCCESS
  | _ => false
  end.

(** The two answers after which setFileOwnerGroupPermissions gives up
    without a diagnostic line. *)
Definition silent_failure (e : Event) : bool :=
  match e with
  | EAllocateAndInitializeSid _ _ _ r _ => r =? 0
  | ESetNamedSecurityInfo _ _ _ _ _ r => r =? ERROR_ACCESS_DENIED
  | _ => false
  end.

(** The flags of [QFile::Permissions] that belong to the group class. *)
Definition groupFlags : Permissions :=
  Z.lor ReadGroup (Z.lor WriteGroup ExeGroup).

(** ** Application data directories *)

(** [windowsConfigPath], [personalAppDataPath] and [globalAppDataPath] call
    the shell, not the security API; they are programs over the two shell
    calls they make. *)
Module KnownFolders.

Definition HRESULT := Z.
Definition S_OK : HRESULT := 0.
Definition KF_FLAG_DEFAULT : DWORD := 0.

(** The two known folders the file names. *)
Inductive KNOWNFOLDERID := FOLDERID_RoamingAppData | FOLDERID_ProgramData.

(** [QDir::separator()] on Windows. *)
Definition separator : string := "\".

Inductive ShellCall : Type -> Type :=
| SHGetKnownFolderPath (rfid : KNOWNFOLDERID) (dwFlags : DWORD)
  : ShellCall (HRESULT * Z * string)
    (** result, [*ppszPath], and the string that lies at that address *)
| CoTaskMemFree (pv : Z) : ShellCall unit.

Inductive ShellEvent :=
| ESHGetKnownFolderPath (rfid : KNOWNFOLDERID) (dwFlags : DWORD)
    (result : HRESULT) (pszPath : Z) (contents : string)
| ECoTaskMemFree (pv : Z).

Definition shell_event_of {R} (c : ShellCall R) : R -> ShellEvent :=
  match c in ShellCall R return R -> ShellEvent with
  | SHGetKnownFolderPath id fl => fun '(r, p, s) => ESHGetKnownFolderPath id fl r p s
  | CoTaskMemFree p => fun _ => ECoTaskMemFree p
  end.

Inductive shell (A : Type) : Type :=
| Done (a : A)
| Ask {R : Type} (c : ShellCall R) (k : R -> shell A).
Arguments Done {A} a.
Arguments Ask {A R} c k.

Fixpoint shell_bind {A B} (p : shell A) (f : A -> shell B) : shell B :=
  match p with
  | Done a => f a
  | Ask c k => Ask c (fun r => shell_bind (k r) f)
  end.

Definition ask {R} (c : ShellCall R) : shell R := Ask c Done.

#[global] Instance shell_ret : MRet shell := @Done.
#[global] Instance shell_mbind : MBind shell := fun A B f p => shell_bind p f.

Class Shell (World : Type) :=
  answer : forall R, ShellCall R -> World -> R * World.
Arguments answer {World _ R} c w.

Record ShellOutcome (World A : Type) := mkShellOutcome {
  value : A;
  after : World;
  calls : list ShellEvent
}.
Arguments mkShellOutcome {World A}.
Arguments value {World A}.
Arguments after {World A}.
Arguments calls {World A}.

Fixpoint shell_run `{Shell World} {A} (p : shell A) (w : World)
  : ShellOutcome World A :=
  match p with
  | Done a => mkShellOutcome a w []
  | Ask c k =>
      let '(r, w1) := answer c w in
      let o := shell_run (k r) w1 in
      mkShellOutcome (value o) (after o) (shell_event_of c r :: calls o)
  end.

Definition windowsConfigPath (folderId : KNOWNFOLDERID) : shell QString :=
  let result : QString := QString_null in
  '(hr, path, contents) ← ask (SHGetKnownFolderPath folderId KF_FLAG_DEFAULT);
  if hr =? S_OK then
    let result := contents in
    ask (CoTaskMemFree path);;
    mret result
  else
    mret result.

Definition personalAppDataPath : shell QString :=
  folder ← windowsConfigPath FOLDERID_RoamingAppData;
  mret (((folder +:+ separator) +:+ "Veyon") +:+ separator).

Definition globalAppDataPath : shell QString :=
  folder ← windowsConfigPath FOLDERID_ProgramData;
  mret (((folder +:+ separator) +:+ "Veyon") +:+ separator).

Definition is_lookup (e : ShellEvent) : bool :=
  match e with
  | ESHGetKnownFolderPath _ _ _ _ _ => true
  | ECoTaskMemFree _ => false
  end.

(** Buffers handed out by the shell and buffers given back, over a run. *)
Definition obtained (e : ShellEvent) : list Z :=
  match e with
  | ESHGetKnownFolderPath _ _ r p _ => if r =? S_OK then [p] else []
  | ECoTaskMemFree _ => []
  end.

Definition freed (e : ShellEvent) : list Z :=
  match e with
  | ESHGetKnownFolderPath _ _ _ _ _ => []
  | ECoTaskMemFree p => [p]
  end.

(** A reference shell: a table of known folders and a bump allocator. *)
Record Desk := mkDesk {
  roaming : option string;
  programData : option string;
  live : list Z;
  top : Z
}.

Definition E_FAIL : HRESULT := -2147467259.

#[global] Instance desk : Shell Desk := fun R c =>
  match c in ShellCall R return Desk -> R * Desk with
  | SHGetKnownFolderPath id _ => fun w =>
      match (match id with
             | FOLDERID_RoamingAppData => roaming w
             | FOLDERID_ProgramData => programData w
             end) with
      | Some s =>
          ((S_OK, top w, s),
           mkDesk (roaming w) (programData w) (top w :: live w) (top w + 0x100))
      | None => ((E_FAIL, nullptr, ""), w)
      end
  | CoTaskMemFree p => fun w =>
      (tt, mkDesk (roaming w) (programData w)
             (List.filter (fun a => negb (a =? p)) (live w)) (top w))
  end.

Definition workstation : Desk :=
  mkDesk (Some "C:\Users\alice\AppData\Roaming") (Some "C:\ProgramData") [] 0x2000.
Definition bare : Desk := mkDesk None None [] 0x2000.

End KnownFolders.

(** Membership in a run written out. *)
Ltac in_run H :=
  repeat match type of H with
         | _ ∈ [] => by apply elem_of_nil in H
         | _ ∈ _ :: _ => apply elem_of_cons in H as [H | H]
         | _ ∈ app _ _ => apply elem_of_app in H as [H | H]
         | _ ∈ (if ?b then _ else _) => destruct b
         | _ = _ => simplify_eq
         end.

(** * Properties *)

(** ** Running programs *)

Section Running.
Context `{B : Backend World}.

Lemma run_call {A R} (c : Win32Call R) (k : R -> prog A) (w : World) :
  run (Call c k) w =
  mkOutcome (retval (run (k (handle c w).1) (handle c w).2))
            (final (run (k (handle c w).1) (handle c w).2))
            (event_of c (handle c w).1 :: trace (run (k (handle c w).1) (handle c w).2)).
Proof. simpl. by destruct (handle c w). Qed.

(** An observation that every step of a run leaves alone is the same after
    the run. *)
Lemma run_frame {A Obs} (obs : World -> Obs) (touches : Event -> bool)
    (p : prog A) :
  frame obs touches ->
  forall w,
    forallb (fun e => negb (touches e)) (trace (run p w)) = true ->
    obs (final (run p w)) = obs w.
Proof.
  intros Hframe. induction p as [a | R c k IH]; intros w Ht.
  - reflexivity.
  - rewrite run_call in Ht |- *. simpl in Ht |- *.
    apply andb_true_iff in Ht as [Hc Ht].
    rewrite IH by exact Ht.
    apply Hframe. by apply negb_true_iff.
Qed.

Lemma fileOwnerGroup_runs name filePath w :
  QueryRun name filePath
    (trace (run (fileOwnerGroup name filePath) w))
    (retval (run (fileOwnerGroup name filePath) w)).
Proof.
  unfold fileOwnerGroup, call. cbn [mbind prog_bind bind].
  rewrite run_call.
  destruct (handle _ w) as [[[r o] sd] w1]. cbn [fst snd retval trace].
  destruct (Z.eqb_spec r ERROR_SUCCESS) as [-> | Hr]; cbn [negb].
  - cbn [bind]. rewrite run_call.
    destruct (handle _ w1) as [[b written] w2]. cbn [fst snd retval trace].
    destruct (Z.eqb_spec b ERROR_SUCCESS) as [-> | Hb]; cbn [negb].
    + simpl. constructor.
    + simpl. destruct (handle _ w2). simpl. by constructor.
  - simpl. destruct (handle _ w1). simpl. by constructor.
Qed.

Lemma setFileOwnerGroup_runs filePath ownerGroup w :
  OwnerRun filePath ownerGroup
    (trace (run (setFileOwnerGroup filePath ownerGroup) w))
    (retval (run (setFileOwnerGroup filePath ownerGroup) w)).
Proof.
  unfold setFileOwnerGroup, call. cbn [mbind prog_bind bind].
  rewrite run_call.
  destruct (handle _ w) as [[found sid] w1]. cbn [fst snd retval trace].
  destruct (Z.eqb_spec found 0) as [-> | Hf].
  - simpl. destruct (handle _ w1). simpl. constructor.
  - simpl.
    destruct (handle _ w1) as [on w2].
    destruct (handle (SetNamedSecurityInfo _ _ _ _ _) w2) as [r w3].
    destruct (handle _ w3) as [off w4]. simpl.
    pose proof (OwnerRun_attempted filePath ownerGroup found sid on off r Hf) as Hrun.
    destruct (Z.eqb_spec r ERROR_SUCCESS) as [-> | Hr]; simpl in *.
    + exact Hrun.
    + destruct (handle _ w4). simpl. exact Hrun.
Qed.

Lemma setFileOwnerGroupPermissions_runs filePath permissions w :
  PermissionsRun filePath permissions
    (trace (run (setFileOwnerGroupPermissions filePath permissions) w))
    (retval (run (setFileOwnerGroupPermissions filePath permissions) w)).
Proof.
  unfold setFileOwnerGroupPermissions, call. cbn [mbind prog_bind bind].
  rewrite run_call.
  destruct (handle _ w) as [[[r o] sd] w1]. cbn [fst snd retval trace].
  destruct (Z.eqb_spec r ERROR_SUCCESS) as [-> | Hr]; cbn [negb].
  2: { simpl. destruct (handle _ w1). simpl. by constructor. }
  cbn [bind]. rewrite run_call.
  destruct (handle _ w1) as [[b p] w2]. cbn [fst snd retval trace].
  destruct (Z.eqb_spec b 0) as [-> | Hb].
  { simpl. constructor. }
  cbn [bind]. rewrite run_call.
  destruct (handle _ w2) as [[ra acl] w3]. cbn [fst snd retval trace].
  destruct (Z.eqb_spec ra ERROR_SUCCESS) as [-> | Hra]; cbn [negb].
  2: { simpl. destruct (handle _ w3) as [[] w4]. destruct (handle _ w4).
       simpl. by apply PermissionsRun_no_acl. }
  cbn [bind]. rewrite run_call.
  destruct (handle _ w3) as [res w4]. cbn [fst snd retval trace].
  pose proof (PermissionsRun_applied filePath permissions o sd b p acl res Hb) as Hrun.
  destruct (Z.eqb_spec res ERROR_ACCESS_DENIED) as [-> | Hres]; simpl in *.
  - destruct (handle _ w4) as [[] w5]. destruct (handle _ w5). simpl. exact Hrun.
  - destruct (handle _ w4) as [[] w5]. destruct (handle _ w5) as [[] w6].
    destruct (handle _ w6). simpl. exact Hrun.
Qed.

End Running.

(** ** The reference backend keeps its contracts *)

Section Reference.
Import Sim.

(** With a name buffer of length zero the reverse lookup cannot succeed. *)
Lemma Sim_LookupAccountSid_no_room p cchDomain w :
  do_LookupAccountSid p 0 cchDomain w = (0, None).
Proof.
  unfold do_LookupAccountSid.
  destruct (sid_at w p) as [s|]; [|done].
  destruct (find _ _) as [a|]; [|done].
  destruct (Z.ltb_spec (Z.of_nat (String.length (acct_name a))) 0); [lia|done].
Qed.

Lemma Sim_observedOwner name (filePath : string) (w : World) :
  observedOwner name filePath w =
  match files w !! filePath with
  | Some _ => name
  | None => QString_null
  end.
Proof.
  unfold observedOwner, fileOwnerGroup, call. cbn [mbind prog_bind bind].
  rewrite run_call. unfold handle at 1 2. cbn [backend retval fst snd].
  unfold do_GetNamedSecurityInfo.
  destruct (files w !! filePath) as [d|]; [|done].
  cbn [alloc fst snd Z.eqb negb ERROR_SUCCESS bind].
  rewrite run_call. unfold handle at 1 2. cbn [backend retval fst snd].
  by rewrite Sim_LookupAccountSid_no_room.
Qed.

(** No call creates or deletes a file. *)
Lemma Sim_files_dom {R} (c : Win32Call R) (w : World) (p : string) :
  is_Some (files (handle c w).2 !! p) <-> is_Some (files w !! p).
Proof.
  unfold handle. destruct c; simpl; try done.
  - unfold do_GetNamedSecurityInfo, alloc. repeat case_match; by simplify_eq/=.
  - unfold do_SetNamedSecurityInfo.
    destruct ObjectType; [done|].
    destruct (files w !! pObjectName) as [d|] eqn:Hd; [|done].
    repeat case_match; simpl; try done.
    all: destruct (decide (pObjectName = p)) as [-> | Hne];
      [rewrite lookup_insert_eq, Hd; split; eauto | by rewrite lookup_insert_ne].
  - unfold do_AllocateAndInitializeSid, alloc. repeat case_match; by simplify_eq/=.
  - unfold do_SetEntriesInAcl, alloc. repeat case_match; by simplify_eq/=.
  - unfold do_enablePrivilege. repeat case_match; by simplify_eq/=.
Qed.

Lemma Sim_frame_observedOwner name (filePath : string) (touches : Event -> bool) :
  frame (observedOwner name filePath) touches.
Proof.
  intros R c w _. rewrite !Sim_observedOwner.
  pose proof (Sim_files_dom c w filePath) as Hdom.
  destruct (files (handle c w).2 !! filePath), (files w !! filePath);
    try done; exfalso.
  - assert (is_Some (@None Descriptor)) as [? ?] by (apply Hdom; eauto). done.
  - assert (is_Some (@None Descriptor)) as [? ?] by (apply Hdom; eauto). done.
Qed.

(** Only [SetNamedSecurityInfo] changes a descriptor. *)
Lemma Sim_frame_descriptor (p : string) :
  frame (fun w : World => files w !! p) mutates_descriptor.
Proof.
  intros R c w. unfold handle. destruct c; simpl; try done.
  - unfold do_GetNamedSecurityInfo, alloc. repeat case_match; by simplify_eq/=.
  - unfold do_AllocateAndInitializeSid, alloc. repeat case_match; by simplify_eq/=.
  - unfold do_SetEntriesInAcl, alloc. repeat case_match; by simplify_eq/=.
  - unfold do_enablePrivilege. repeat case_match; by simplify_eq/=.
Qed.

(** Only [SetNamedSecurityInfo] with [OWNER_SECURITY_INFORMATION] changes an
    owner. *)
Lemma Sim_frame_owner (p : string) :
  frame (fun w : World => Owner <$> files w !! p) mutates_owner.
Proof.
  intros R c w. unfold handle. destruct c; simpl; try done.
  - unfold do_GetNamedSecurityInfo, alloc. repeat case_match; by simplify_eq/=.
  - unfold do_SetNamedSecurityInfo, has. intros Hinfo.
    rewrite Hinfo.
    destruct ObjectType; simpl; [done|].
    destruct (files w !! pObjectName) as [d|] eqn:Hd; simpl; [|done].
    repeat case_match; simplify_eq/=; try done.
    all: destruct (decide (pObjectName = p)) as [-> | Hne];
      [by rewrite lookup_insert_eq, Hd | by rewrite lookup_insert_ne].
  - unfold do_AllocateAndInitializeSid, alloc. repeat case_match; by simplify_eq/=.
  - unfold do_SetEntriesInAcl, alloc. repeat case_match; by simplify_eq/=.
  - unfold do_enablePrivilege. repeat case_match; by simplify_eq/=.
Qed.

End Reference.

(** ** The owner entry *)

Lemma testFlag_bit (permissions : Permissions) (n : Z) :
  0 <= n -> testFlag permissions (2 ^ n) = Z.testbit permissions n.
Proof.
  intros Hn. unfold testFlag.
  destruct (Z.testbit permissions n) eqn:Hbit.
  - apply negb_true_iff, Z.eqb_neq. intros Hland.
    assert (Z.testbit (Z.land permissions (2 ^ n)) n = true) as Hset
      by (rewrite Z.land_spec, Hbit, Z.pow2_bits_true; auto).
    rewrite Hland, Z.bits_0 in Hset. discriminate.
  - apply negb_false_iff, Z.eqb_eq, Z.bits_inj'. intros i Hi.
    rewrite Z.land_spec, Z.bits_0, Z.pow2_bits_eqb by exact Hn.
    destruct (Z.eqb_spec n i) as [-> | _].
    + by rewrite Hbit.
    + apply andb_false_r.
Qed.

Lemma ownerAccessPermissions_bits (permissions : Permissions) :
  ownerAccessPermissions permissions =
  Z.lor (if Z.testbit permissions 6 then GENERIC_READ else 0)
    (Z.lor (if Z.testbit permissions 5 then GENERIC_WRITE else 0)
           (if Z.testbit permissions 4 then GENERIC_EXECUTE else 0)).
Proof.
  unfold ownerAccessPermissions.
  change ReadGroup with (2 ^ 6). change WriteGroup with (2 ^ 5).
  change ExeGroup with (2 ^ 4).
  rewrite !testFlag_bit by lia.
  by destruct (Z.testbit permissions 6), (Z.testbit permissions 5),
    (Z.testbit permissions 4).
Qed.

(** C8: for the empty permission set the entry built for the owner has the
    access mask zero.  For any permission set the mask is the union of
    generic-read, generic-write and generic-execute taken exactly when the
    ReadGroup (bit 6), WriteGroup (bit 5) and ExeGroup (bit 4) flags are set;
    every other bit of the input contributes nothing.  Whenever a run of
    setFileOwnerGroupPermissions with no permissions reaches
    [SetEntriesInAcl], the first entry passed carries the mask zero; and
    every run in which the descriptor was read and the administrators SID
    allocated does reach it: its third call is [SetEntriesInAcl] with the
    owner entry of mask zero followed by the administrators entry. *)
Theorem empty_permissions_zero_owner_mask :
  ownerAccessPermissions 0 = 0
  /\ (forall permissions : Permissions,
        ownerAccessPermissions permissions =
        Z.lor (if Z.testbit permissions 6 then GENERIC_READ else 0)
          (Z.lor (if Z.testbit permissions 5 then GENERIC_WRITE else 0)
                 (if Z.testbit permissions 4 then GENERIC_EXECUTE else 0)))
  /\ (forall World (B : Backend World) (w : World) (filePath : QString)
        n l old r acl,
        ESetEntriesInAcl n l old r acl
          ∈ trace (run (setFileOwnerGroupPermissions filePath 0) w) ->
        exists e0 e1, l = [e0; e1] /\ grfAccessPermissions e0 = 0)
  /\ (forall World (B : Backend World) (w : World) (filePath : QString),
        existsb preparation_failed
          (take 2 (trace (run (setFileOwnerGroupPermissions filePath 0) w)))
        = false ->
        exists ownerSID adminSID r acl,
          trace (run (setFileOwnerGroupPermissions filePath 0) w) !! 2%nat
          = Some (ESetEntriesInAcl 2
                    [entry 0 ownerSID; entry GENERIC_ALL adminSID]
                    nullptr r acl)
          /\ grfAccessPermissions (entry 0 ownerSID) = 0
          /\ Trustee (entry 0 ownerSID)
             = mkTRUSTEE nullptr NO_MULTIPLE_TRUSTEE TRUSTEE_IS_SID
                 TRUSTEE_IS_GROUP ownerSID).
Proof.
  split; [reflexivity|]. split; [exact ownerAccessPermissions_bits|]. split.
  - intros World B w filePath n l old r acl Hin.
    destruct (setFileOwnerGroupPermissions_runs filePath 0 w); in_run Hin;
      eexists _, _; split; reflexivity.
  - intros World B w filePath Hprepared.
    destruct (setFileOwnerGroupPermissions_runs filePath 0 w)
      as [r0 o0 sd0 Hr | o0 sd0 p0 | o0 sd0 b0 p0 r0 acl0 Hb Hr | o0 sd0 b0 p0 acl0 r0 Hb].
    + apply Z.eqb_neq in Hr. simpl in Hprepared. rewrite Hr in Hprepared.
      discriminate.
    + discriminate.
    + by exists o0, p0, r0, acl0.
    + by exists o0, p0, ERROR_SUCCESS, acl0.
Qed.

Lemma empty_permissions_zero_owner_mask_witness :
  (exists e0 e1,
      [entry 0 4116; entry GENERIC_ALL 4352] = [e0; e1]
      /\ grfAccessPermissions e0 = 0)
  /\ (exists ownerSID adminSID r acl,
        trace (run (setFileOwnerGroupPermissions Sim.report 0)
                 (Sim.office Sim.Alice)) !! 2%nat
        = Some (ESetEntriesInAcl 2
                  [entry 0 ownerSID; entry GENERIC_ALL adminSID] nullptr r acl)
        /\ grfAccessPermissions (entry 0 ownerSID) = 0
        /\ Trustee (entry 0 ownerSID)
           = mkTRUSTEE nullptr NO_MULTIPLE_TRUSTEE TRUSTEE_IS_SID
               TRUSTEE_IS_GROUP ownerSID)
  /\ Sim.Dacl <$> Sim.files
        (final (run (setFileOwnerGroupPermissions Sim.report 0)
                  (Sim.office Sim.Alice))) !! Sim.report
     = Some [Sim.mkACE SET_ACCESS 0 Sim.Alice;
             Sim.mkACE SET_ACCESS GENERIC_ALL Sim.Administrators].
Proof.
  split; [|split].
  - apply (proj1 (proj2 (proj2 empty_permissions_zero_owner_mask))
             Sim.World Sim.backend (Sim.office Sim.Alice) Sim.report
             2 _ nullptr ERROR_SUCCESS 4608).
    vm_compute. do 2 apply list_elem_of_further. apply list_elem_of_here.
  - apply (proj2 (proj2 (proj2 empty_permissions_zero_owner_mask))
             Sim.World Sim.backend (Sim.office Sim.Alice) Sim.report).
    vm_compute. reflexivity.
  - vm_compute. reflexivity.
Defined.

(** ** The access-control list *)

(** C2: for every permission set, whenever setFileOwnerGroupPermissions
    builds an ACL it passes exactly two entries and no prior ACL to
    [SetEntriesInAcl]: first an allow entry ([SET_ACCESS], no inheritance)
    whose trustee is the owner SID that [GetNamedSecurityInfo] returned for
    the path, then an allow entry with [GENERIC_ALL] whose trustee is the SID
    allocated for S-1-5-32-544, the local administrators, whatever the
    permission set.  Whenever it writes a descriptor, it writes only the DACL
    part of the path's descriptor, and the DACL is the list that
    [SetEntriesInAcl] built that way.  And it does build and apply it: in
    every run in which the descriptor was read, the administrators SID
    allocated and the ACL built, the first four calls are those three
    followed by the write of that ACL as the DACL of the path; no other
    descriptor write follows, and the function returns whether that write
    succeeded. *)
Theorem setFileOwnerGroupPermissions_acl
    `{B : Backend World} (w : World) (filePath : QString)
    (permissions : Permissions) :
  let t := trace (run (setFileOwnerGroupPermissions filePath permissions) w) in
  (forall n l old r acl,
      ESetEntriesInAcl n l old r acl ∈ t ->
      n = 2 /\ old = nullptr /\
      exists ownerSID sd adminSID allocated,
        t !! 0%nat = Some (EGetNamedSecurityInfo filePath SE_FILE_OBJECT
                             OWNER_SECURITY_INFORMATION ERROR_SUCCESS ownerSID sd)
        /\ t !! 1%nat = Some (EAllocateAndInitializeSid SECURITY_NT_AUTHORITY 2
                                [SECURITY_BUILTIN_DOMAIN_RID;
                                 DOMAIN_ALIAS_RID_ADMINS; 0; 0; 0; 0; 0; 0]
                                allocated adminSID)
        /\ allocated <> 0
        /\ l = [entry (ownerAccessPermissions permissions) ownerSID;
                entry GENERIC_ALL adminSID])
  /\ (forall n ty info o dacl r,
        ESetNamedSecurityInfo n ty info o dacl r ∈ t ->
        n = filePath /\ ty = SE_FILE_OBJECT
        /\ info = DACL_SECURITY_INFORMATION /\ o = None
        /\ exists l, ESetEntriesInAcl 2 l nullptr ERROR_SUCCESS dacl ∈ t)
  /\ (existsb preparation_failed t = false ->
      exists ownerSID sd adminSID allocated acl r rest,
        t = ([EGetNamedSecurityInfo filePath SE_FILE_OBJECT
                OWNER_SECURITY_INFORMATION ERROR_SUCCESS ownerSID sd;
              EAllocateAndInitializeSid SECURITY_NT_AUTHORITY 2
                [SECURITY_BUILTIN_DOMAIN_RID; DOMAIN_ALIAS_RID_ADMINS;
                 0; 0; 0; 0; 0; 0]
                allocated adminSID;
              ESetEntriesInAcl 2
                [entry (ownerAccessPermissions permissions) ownerSID;
                 entry GENERIC_ALL adminSID]
                nullptr ERROR_SUCCESS acl;
              ESetNamedSecurityInfo filePath SE_FILE_OBJECT
                DACL_SECURITY_INFORMATION None acl r] ++ rest)%list
        /\ allocated <> 0
        /\ existsb mutates_descriptor rest = false
        /\ retval (run (setFileOwnerGroupPermissions filePath permissions) w)
           = (r =? ERROR_SUCCESS)).
Proof.
  intros t. subst t.
  destruct (setFileOwnerGroupPermissions_runs filePath permissions w)
    as [r0 o0 sd0 Hr | o0 sd0 p0 | o0 sd0 b0 p0 r0 acl0 Hb Hr | o0 sd0 b0 p0 acl0 r0 Hb].
  - split; [|split]; intros; try (in_run H; fail).
    apply Z.eqb_neq in Hr. simpl in H. rewrite Hr in H. discriminate.
  - split; [|split]; intros; in_run H.
  - split; [|split]; intros.
    + in_run H. repeat split. by exists o0, sd0, p0, b0.
    + in_run H.
    + apply Z.eqb_neq in Hb, Hr. simpl in H. rewrite Hb, Hr in H. discriminate.
  - split; [|split]; intros.
    + in_run H. repeat split. by exists o0, sd0, p0, b0.
    + in_run H. repeat split. eexists. do 2 apply list_elem_of_further.
      apply list_elem_of_here.
    + exists o0, sd0, p0, b0, acl0, r0. eexists. split; [reflexivity|].
      split; [exact Hb|]. split; [by destruct (r0 =? ERROR_ACCESS_DENIED) | done].
Qed.

Lemma setFileOwnerGroupPermissions_acl_witness :
  [entry GENERIC_READ 4116; entry GENERIC_ALL 4352]
  = [entry (ownerAccessPermissions ReadGroup) 4116; entry GENERIC_ALL 4352]
  /\ (exists l, ESetEntriesInAcl 2 l nullptr ERROR_SUCCESS 4608
        ∈ trace (run (setFileOwnerGroupPermissions Sim.report ReadGroup)
                   (Sim.office Sim.Alice)))
  /\ (exists ownerSID sd adminSID allocated acl r rest,
        trace (run (setFileOwnerGroupPermissions Sim.report ReadGroup)
                 (Sim.office Sim.Alice))
        = ([EGetNamedSecurityInfo Sim.report SE_FILE_OBJECT
              OWNER_SECURITY_INFORMATION ERROR_SUCCESS ownerSID sd;
            EAllocateAndInitializeSid SECURITY_NT_AUTHORITY 2
              [SECURITY_BUILTIN_DOMAIN_RID; DOMAIN_ALIAS_RID_ADMINS;
               0; 0; 0; 0; 0; 0]
              allocated adminSID;
            ESetEntriesInAcl 2
              [entry (ownerAccessPermissions ReadGroup) ownerSID;
               entry GENERIC_ALL adminSID]
              nullptr ERROR_SUCCESS acl;
            ESetNamedSecurityInfo Sim.report SE_FILE_OBJECT
              DACL_SECURITY_INFORMATION None acl r] ++ rest)%list
        /\ allocated <> 0
        /\ existsb mutates_descriptor rest = false
        /\ retval (run (setFileOwnerGroupPermissions Sim.report ReadGroup)
                     (Sim.office Sim.Alice))
           = (r =? ERROR_SUCCESS))
  /\ Sim.Dacl <$> Sim.files
        (final (run (setFileOwnerGroupPermissions Sim.report ReadGroup)
                  (Sim.office Sim.Alice))) !! Sim.report
     = Some [Sim.mkACE SET_ACCESS GENERIC_READ Sim.Alice;
             Sim.mkACE SET_ACCESS GENERIC_ALL Sim.Administrators].
Proof.
  pose proof (setFileOwnerGroupPermissions_acl
                (Sim.office Sim.Alice) Sim.report ReadGroup)
    as (Hacl & Hset & Happlied).
  split; [|split; [|split]].
  - destruct (Hacl 2 [entry GENERIC_READ 4116; entry GENERIC_ALL 4352]
                nullptr ERROR_SUCCESS 4608)
      as (_ & _ & ownerSID & sd & adminSID & allocated & H0 & H1 & _ & Hl).
    + vm_compute. do 2 apply list_elem_of_further. apply list_elem_of_here.
    + vm_compute in H0, H1. injection H0 as <- _. injection H1 as _ <-.
      exact Hl.
  - apply (Hset Sim.report SE_FILE_OBJECT DACL_SECURITY_INFORMATION None 4608
             ERROR_SUCCESS).
    vm_compute. do 3 apply list_elem_of_further. apply list_elem_of_here.
  - apply Happlied. vm_compute. reflexivity.
  - vm_compute. reflexivity.
Defined.

(** ** The take-ownership privilege *)

Lemma privilege_after_diagnostics (p : string) (on : bool) (t : list Event) :
  forallb is_diagnostic t = true -> privilege_after p on t = on.
Proof.
  induction t as [|e t IH]; [done|]. simpl.
  intros [He Ht]%andb_true_iff. destruct e; try done. by apply IH.
Qed.

(** C3: in every run of setFileOwnerGroup the calls that enable the
    take-ownership privilege and those that disable it are equal in number.
    The run either toggles no privilege at all and writes no descriptor (the
    name did not resolve), or it consists of the lookup, the enabling call,
    the attempt to set the owner, the disabling call directly after it
    whatever the attempt returned, and at most diagnostics after that.  With
    the toggles doing what the spec says, the privilege is disabled after
    any run that toggled it, and is as it was before otherwise. *)
Theorem setFileOwnerGroup_privilege_bracket
    `{B : Backend World} (w : World) (filePath ownerGroup : QString) :
  let t := trace (run (setFileOwnerGroup filePath ownerGroup) w) in
  length (List.filter (enables SE_TAKE_OWNERSHIP_NAME) t)
  = length (List.filter (disables SE_TAKE_OWNERSHIP_NAME) t)
  /\ ((existsb toggles_privilege t = false
       /\ existsb mutates_descriptor t = false)
      \/ exists found sid on r off diagnostics,
           t = ([ELookupAccountName ownerGroup SECURITY_MAX_SID_SIZE MAX_PATH
                   found sid;
                 EenablePrivilege SE_TAKE_OWNERSHIP_NAME true on;
                 ESetNamedSecurityInfo filePath SE_FILE_OBJECT
                   OWNER_SECURITY_INFORMATION (Some sid) nullptr r;
                 EenablePrivilege SE_TAKE_OWNERSHIP_NAME false off]
                ++ diagnostics)%list
           /\ forallb is_diagnostic diagnostics = true)
  /\ (forall on : bool,
        privilege_after SE_TAKE_OWNERSHIP_NAME on t
        = if existsb toggles_privilege t then false else on)
  /\ privilege_after SE_TAKE_OWNERSHIP_NAME false t = false.
Proof.
  intros t. subst t.
  destruct (setFileOwnerGroup_runs filePath ownerGroup w)
    as [sid | found sid on off r Hfound].
  - split; [reflexivity|]. split; [by left|]. split; reflexivity.
  - assert (forallb is_diagnostic
              (if r =? ERROR_SUCCESS then []
               else [failure_line Q_FUNC_INFO_setFileOwnerGroup
                       "SetNamedSecurityInfo() failed:" r]) = true) as Hdiag
      by (by destruct (r =? ERROR_SUCCESS)).
    split; [by destruct (r =? ERROR_SUCCESS)|].
    split; [right; do 6 eexists; split; [reflexivity | exact Hdiag]|].
    split; [intros before|]; simpl; by apply privilege_after_diagnostics.
Qed.

(** ** Failures that leave the descriptor alone *)

Lemma setFileOwnerGroup_first_call `{B : Backend World} (w : World)
    (filePath ownerGroup : QString) :
  exists rest,
    trace (run (setFileOwnerGroup filePath ownerGroup) w)
    = event_of (LookupAccountName ownerGroup SECURITY_MAX_SID_SIZE MAX_PATH)
        (handle (LookupAccountName ownerGroup SECURITY_MAX_SID_SIZE MAX_PATH) w).1
      :: rest.
Proof.
  unfold setFileOwnerGroup, call. cbn [mbind prog_bind bind].
  rewrite run_call. cbn [trace]. by eexists.
Qed.

(** C4: when the lookup of the group name fails, setFileOwnerGroup returns
    false, its run is the failed lookup followed by one diagnostic line, so
    it neither writes a descriptor nor toggles a privilege, and, on a
    backend where only descriptor writes change what fileOwnerGroup returns,
    fileOwnerGroup returns for every path what it returned before. *)
Theorem setFileOwnerGroup_unresolved
    `{B : Backend World} (w : World) (filePath ownerGroup : QString) :
  (forall name p, frame (observedOwner name p) mutates_descriptor) ->
  (handle (LookupAccountName ownerGroup SECURITY_MAX_SID_SIZE MAX_PATH) w).1.1 = 0 ->
  let o := run (setFileOwnerGroup filePath ownerGroup) w in
  retval o = false
  /\ (exists sid,
        trace o = [ELookupAccountName ownerGroup SECURITY_MAX_SID_SIZE MAX_PATH 0 sid;
                   EqCritical [LStr "Could not look up SID structure"]])
  /\ existsb mutates_descriptor (trace o) = false
  /\ existsb toggles_privilege (trace o) = false
  /\ forall name p, observedOwner name p (final o) = observedOwner name p w.
Proof.
  intros Hframe Hfail o. subst o.
  destruct (setFileOwnerGroup_first_call w filePath ownerGroup) as [rest Hfirst].
  destruct (handle (LookupAccountName ownerGroup SECURITY_MAX_SID_SIZE MAX_PATH) w).1
    as [found sid0]. simpl in Hfail, Hfirst. subst found.
  assert (retval (run (setFileOwnerGroup filePath ownerGroup) w) = false
          /\ exists sid,
               trace (run (setFileOwnerGroup filePath ownerGroup) w)
               = [ELookupAccountName ownerGroup SECURITY_MAX_SID_SIZE MAX_PATH 0 sid;
                  EqCritical [LStr "Could not look up SID structure"]])
    as [Hret [sid Htrace]].
  { pose proof (setFileOwnerGroup_runs filePath ownerGroup w) as Hrun.
    inversion Hrun as [sid Ht Hr | found sid on off r Hfound Ht Hr].
    - split; [done | by exists sid].
    - rewrite <- Ht in Hfirst. simpl in Hfirst. congruence. }
  split; [exact Hret|]. split; [by exists sid|].
  split; [by rewrite Htrace|]. split; [by rewrite Htrace|].
  intros name p. apply (run_frame _ mutates_descriptor); [apply Hframe|].
  by rewrite Htrace.
Qed.

Lemma setFileOwnerGroup_unresolved_witness :
  let o := run (setFileOwnerGroup Sim.report "NoSuchUser") (Sim.office Sim.Bob) in
  retval o = false
  /\ (exists sid,
        trace o = [ELookupAccountName "NoSuchUser" SECURITY_MAX_SID_SIZE MAX_PATH 0 sid;
                   EqCritical [LStr "Could not look up SID structure"]])
  /\ existsb mutates_descriptor (trace o) = false
  /\ existsb toggles_privilege (trace o) = false
  /\ forall name p,
       observedOwner name p (final o) = observedOwner name p (Sim.office Sim.Bob).
Proof.
  apply (setFileOwnerGroup_unresolved (Sim.office Sim.Bob) Sim.report "NoSuchUser").
  - intros name p. apply Sim_frame_observedOwner.
  - reflexivity.
Defined.

(** C10: when a step of setFileOwnerGroupPermissions that precedes the DACL
    write fails (the descriptor cannot be read, the administrators SID
    cannot be allocated, or the ACL cannot be built), the function returns
    false and its run contains no [SetNamedSecurityInfo]; on a backend where
    only that call changes descriptors, every descriptor is as before. *)
Theorem setFileOwnerGroupPermissions_preparation_failure
    `{B : Backend World} {Obs} (descriptor : World -> QString -> Obs)
    (w : World) (filePath : QString) (permissions : Permissions) :
  (forall p, frame (fun w => descriptor w p) mutates_descriptor) ->
  let o := run (setFileOwnerGroupPermissions filePath permissions) w in
  existsb preparation_failed (trace o) = true ->
  retval o = false
  /\ existsb mutates_descriptor (trace o) = false
  /\ forall p, descriptor (final o) p = descriptor w p.
Proof.
  intros Hframe o Hfailed. subst o.
  assert (retval (run (setFileOwnerGroupPermissions filePath permissions) w) = false
          /\ existsb mutates_descriptor
               (trace (run (setFileOwnerGroupPermissions filePath permissions) w))
             = false) as [Hret Hnone].
  { destruct (setFileOwnerGroupPermissions_runs filePath permissions w)
      as [r0 o0 sd0 Hr | o0 sd0 p0 | o0 sd0 b0 p0 r0 acl0 Hb Hr | o0 sd0 b0 p0 acl0 r0 Hb];
      try done.
    exfalso. apply Z.eqb_neq in Hb.
    destruct (r0 =? ERROR_ACCESS_DENIED); simpl in Hfailed;
      rewrite Hb in Hfailed; discriminate. }
  split; [exact Hret|]. split; [exact Hnone|].
  intros p. apply (run_frame (fun w => descriptor w p) mutates_descriptor);
    [apply Hframe|].
  clear -Hnone. induction (trace _) as [|e t IH]; [done|].
  simpl in *. apply orb_false_iff in Hnone as [-> Ht]. by rewrite IH.
Qed.

Lemma setFileOwnerGroupPermissions_preparation_failure_witness :
  let o := run (setFileOwnerGroupPermissions "C:\data\missing.xlsx" ReadGroup)
             (Sim.office Sim.Alice) in
  retval o = false
  /\ existsb mutates_descriptor (trace o) = false
  /\ forall p : QString,
       Sim.files (final o) !! p = Sim.files (Sim.office Sim.Alice) !! p.
Proof.
  apply (setFileOwnerGroupPermissions_preparation_failure
           (fun (w : Sim.World) (p : QString) => Sim.files w !! p)
           (Sim.office Sim.Alice) "C:\data\missing.xlsx" ReadGroup).
  - intros p. apply Sim_frame_descriptor.
  - reflexivity.
Defined.

(** ** Permissions leave the owner alone *)

(** C9: every run of setFileOwnerGroupPermissions writes at most the DACL
    part of the path's descriptor: its only descriptor write carries
    [DACL_SECURITY_INFORMATION] and no owner.  On a backend where only a
    write carrying [OWNER_SECURITY_INFORMATION] changes the owner part, the
    owner of every path is as before, and fileOwnerGroup returns for every
    path what it returned before. *)
Theorem setFileOwnerGroupPermissions_keeps_owner
    `{B : Backend World} {Obs} (owner : World -> QString -> Obs)
    (w : World) (filePath : QString) (permissions : Permissions) :
  (forall p, frame (fun w => owner w p) mutates_owner) ->
  (forall name p, frame (observedOwner name p) mutates_owner) ->
  let o := run (setFileOwnerGroupPermissions filePath permissions) w in
  (forall e, e ∈ trace o -> mutates_descriptor e = true ->
     exists acl r, e = ESetNamedSecurityInfo filePath SE_FILE_OBJECT
                         DACL_SECURITY_INFORMATION None acl r)
  /\ (forall p, owner (final o) p = owner w p)
  /\ (forall name p, observedOwner name p (final o) = observedOwner name p w).
Proof.
  intros Howner Hobserved o. subst o.
  assert ((forall e,
             e ∈ trace (run (setFileOwnerGroupPermissions filePath permissions) w) ->
             mutates_descriptor e = true ->
             exists acl r, e = ESetNamedSecurityInfo filePath SE_FILE_OBJECT
                                 DACL_SECURITY_INFORMATION None acl r)
          /\ forallb (fun e => negb (mutates_owner e))
               (trace (run (setFileOwnerGroupPermissions filePath permissions) w))
             = true) as [Hwrites Hkeeps].
  { destruct (setFileOwnerGroupPermissions_runs filePath permissions w)
      as [r0 o0 sd0 Hr | o0 sd0 p0 | o0 sd0 b0 p0 r0 acl0 Hb Hr | o0 sd0 b0 p0 acl0 r0 Hb].
    - split; [intros e He Hw; in_run He; discriminate | done].
    - split; [intros e He Hw; in_run He; discriminate | done].
    - split; [intros e He Hw; in_run He; discriminate | done].
    - split; [|by destruct (r0 =? ERROR_ACCESS_DENIED)].
      intros e He Hw; in_run He; try discriminate; by eexists _, _. }
  split; [exact Hwrites|]. split.
  - intros p. by apply (run_frame (fun w => owner w p) mutates_owner).
  - intros name p. by apply (run_frame _ mutates_owner).
Qed.

Lemma setFileOwnerGroupPermissions_keeps_owner_witness :
  let o := run (setFileOwnerGroupPermissions Sim.report ReadGroup)
             (Sim.office Sim.Alice) in
  (forall p : QString,
     Sim.Owner <$> Sim.files (final o) !! p
     = Sim.Owner <$> Sim.files (Sim.office Sim.Alice) !! p)
  /\ (forall name p,
        observedOwner name p (final o)
        = observedOwner name p (Sim.office Sim.Alice)).
Proof.
  apply (setFileOwnerGroupPermissions_keeps_owner
           (fun (w : Sim.World) (p : QString) => Sim.Owner <$> Sim.files w !! p)
           (Sim.office Sim.Alice) Sim.report ReadGroup).
  - intros p. apply Sim_frame_owner.
  - intros name p. apply Sim_frame_observedOwner.
Defined.

(** The scenario of the spec on the reference backend: the report's DACL
    becomes the owner's read entry followed by the administrators'
    full-control entry, and the prior entry is gone. *)
Example report_scenario_dacl :
  Sim.files (final (run (setFileOwnerGroupPermissions Sim.report ReadGroup)
                      (Sim.office Sim.Alice))) !! Sim.report
  = Some (Sim.mkDescriptor Sim.Alice
            [Sim.mkACE SET_ACCESS GENERIC_READ Sim.Alice;
             Sim.mkACE SET_ACCESS GENERIC_ALL Sim.Administrators]).
Proof. vm_compute. reflexivity. Qed.

(** ** Where the code departs from its contract *)

(** On any backend, fileOwnerGroup returns the contents of its name array
    exactly on the runs in which [LookupAccountSid] returned zero, that is,
    failed; when the lookup returned non-zero it reports a failure. *)
Lemma fileOwnerGroup_returns_array_on_failed_lookup
    `{B : Backend World} (w : World) (name : string) (filePath : QString) :
  let o := run (fileOwnerGroup name filePath) w in
  (existsb is_diagnostic (trace o) = true /\ retval o = QString_null)
  \/ (exists ownerSID written,
        last (trace o) = Some (ELookupAccountSid ownerSID 0 0 0 written)
        /\ retval o = default name written).
Proof.
  intros o. subst o.
  destruct (fileOwnerGroup_runs name filePath w); [by left | by left |].
  right. by eexists _, _.
Qed.

(** C1: on the reference backend Bob takes the report over from Alice:
    setFileOwnerGroup returns true and the descriptor names Bob as owner.
    fileOwnerGroup then hands its reverse lookup a name buffer of length
    zero, the lookup returns zero, the code takes zero for success and
    returns whatever its uninitialised array held, not the name just set. *)
Theorem setFileOwnerGroup_then_fileOwnerGroup :
  let set := run (setFileOwnerGroup Sim.report "Bob") (Sim.office Sim.Bob) in
  retval set = true
  /\ Sim.Owner <$> Sim.files (final set) !! Sim.report = Some Sim.Bob
  /\ (forall name : string,
        retval (run (fileOwnerGroup name Sim.report) (final set)) = name)
  /\ retval (run (fileOwnerGroup "" Sim.report) (final set)) <> "Bob".
Proof.
  intros set. subst set.
  split; [vm_compute; reflexivity|]. split; [vm_compute; reflexivity|]. split.
  - intros name. vm_compute. reflexivity.
  - vm_compute. discriminate.
Qed.

(** C5: on the reference backend the reverse lookup for the owner of the
    report fails for want of room (it is given a name buffer of length zero
    and returns zero without writing a name); fileOwnerGroup logs nothing and
    returns the contents of its uninitialised array instead of the null
    string. *)
Theorem fileOwnerGroup_failed_lookup_not_surfaced :
  forall name : string,
    let o := run (fileOwnerGroup name Sim.report) (Sim.office Sim.Alice) in
    trace o = [EGetNamedSecurityInfo Sim.report SE_FILE_OBJECT
                 OWNER_SECURITY_INFORMATION ERROR_SUCCESS 4116 4096;
               ELookupAccountSid 4116 0 0 0 None]
    /\ retval o = name.
Proof. intros name. split; vm_compute; reflexivity. Qed.

(** C6: on the reference backend Alice sets permissions on her own report;
    the DACL write returns [ERROR_SUCCESS], the function returns true, and
    the run still contains the line "SetNamedSecurityInfo() failed: 0". *)
Theorem setFileOwnerGroupPermissions_logs_failure_on_success :
  let o := run (setFileOwnerGroupPermissions Sim.report ReadGroup)
             (Sim.office Sim.Alice) in
  retval o = true
  /\ trace o =
     [EGetNamedSecurityInfo Sim.report SE_FILE_OBJECT
        OWNER_SECURITY_INFORMATION ERROR_SUCCESS 4116 4096;
      EAllocateAndInitializeSid SECURITY_NT_AUTHORITY 2 administrators_rids 1 4352;
      ESetEntriesInAcl 2 [entry GENERIC_READ 4116; entry GENERIC_ALL 4352]
        nullptr ERROR_SUCCESS 4608;
      ESetNamedSecurityInfo Sim.report SE_FILE_OBJECT DACL_SECURITY_INFORMATION
        None 4608 ERROR_SUCCESS;
      failure_line Q_FUNC_INFO_setFileOwnerGroupPermissions
        "SetNamedSecurityInfo() failed:" ERROR_SUCCESS;
      EFreeSid 4352;
      ELocalFree 4608]
  /\ Sim.diagnostics (final o)
     = [[Q_FUNC_INFO_setFileOwnerGroupPermissions;
         LStr "SetNamedSecurityInfo() failed:"; LNum 0]].
Proof. repeat split; vm_compute; reflexivity. Qed.

(** On any backend the DACL write of setFileOwnerGroupPermissions is followed
    by a failure line exactly when it returned something other than
    [ERROR_ACCESS_DENIED], success included. *)
Lemma setFileOwnerGroupPermissions_failure_line
    `{B : Backend World} (w : World) (filePath : QString)
    (permissions : Permissions) (acl : PACL) (r : DWORD) :
  let t := trace (run (setFileOwnerGroupPermissions filePath permissions) w) in
  ESetNamedSecurityInfo filePath SE_FILE_OBJECT DACL_SECURITY_INFORMATION
    None acl r ∈ t ->
  (failure_line Q_FUNC_INFO_setFileOwnerGroupPermissions
     "SetNamedSecurityInfo() failed:" r ∈ t
   <-> r <> ERROR_ACCESS_DENIED).
Proof.
  intros t Hin. subst t.
  destruct (setFileOwnerGroupPermissions_runs filePath permissions w)
    as [r0 o0 sd0 Hr | o0 sd0 p0 | o0 sd0 b0 p0 r0 acl0 Hb Hr | o0 sd0 b0 p0 acl0 r0 Hb];
    try (in_run Hin; fail).
  assert (r0 = r) as ->.
  { destruct (r0 =? ERROR_ACCESS_DENIED); in_run Hin; done. }
  destruct (Z.eqb_spec r ERROR_ACCESS_DENIED) as [-> | Hne].
  - split; [intros H; in_run H | done].
  - split; [done|]. intros _.
    do 4 apply list_elem_of_further. apply list_elem_of_here.
Qed.

(** C7: on the reference backend, the run of setFileOwnerGroupPermissions
    receives three buffers (descriptor, administrators SID, ACL) and
    releases two; the descriptor is never released and is still on the heap
    when the function has returned.  The run of fileOwnerGroup receives the
    descriptor and releases nothing. *)
Theorem descriptor_buffer_not_released :
  let o := run (setFileOwnerGroupPermissions Sim.report ReadGroup)
             (Sim.office Sim.Alice) in
  let q := run (fileOwnerGroup "" Sim.report) (Sim.office Sim.Alice) in
  allocations (trace o) = [4096; 4352; 4608]
  /\ releases (trace o) = [4352; 4608]
  /\ occurrences 4096 (releases (trace o)) = 0%nat
  /\ is_Some (Sim.heap (final o) !! 4096)
  /\ allocations (trace q) = [4096]
  /\ releases (trace q) = []
  /\ is_Some (Sim.heap (final q) !! 4096).
Proof. repeat split; vm_compute; eauto. Qed.

(** On any backend: no run of fileOwnerGroup releases anything.  A run of
    setFileOwnerGroupPermissions releases, in order and once each, exactly
    the buffers it received after its first call (the administrators SID
    and the ACL); the descriptor received by that first call is not among
    them, so a run that received one releases fewer buffers than it
    received. *)
Lemma descriptor_leaks `{B : Backend World} (w : World) (name : string)
    (filePath : QString) (permissions : Permissions) :
  releases (trace (run (fileOwnerGroup name filePath) w)) = []
  /\ let t := trace (run (setFileOwnerGroupPermissions filePath permissions) w) in
     releases t = allocations (drop 1 t)
     /\ (existsb preparation_failed (firstn 1 t) = false ->
         (length (releases t) < length (allocations t))%nat).
Proof.
  split.
  - by destruct (fileOwnerGroup_runs name filePath w).
  - intros t. subst t.
    destruct (setFileOwnerGroupPermissions_runs filePath permissions w)
      as [r0 o0 sd0 Hr | o0 sd0 p0 | o0 sd0 b0 p0 r0 acl0 Hb Hr | o0 sd0 b0 p0 acl0 r0 Hb].
    + apply Z.eqb_neq in Hr. unfold allocations, releases. simpl.
      rewrite Hr. simpl. split; [done | discriminate].
    + unfold allocations, releases. simpl. split; [done | lia].
    + apply Z.eqb_neq in Hb, Hr. unfold allocations, releases. simpl.
      rewrite Hb, Hr. simpl. split; [done | lia].
    + apply Z.eqb_neq in Hb. unfold allocations, releases.
      destruct (r0 =? ERROR_ACCESS_DENIED); simpl; rewrite Hb; simpl;
        (split; [done | lia]).
Qed.

(** * Further properties of the code *)

(** ** What the setters return and log *)

(** X1: setFileOwnerGroup returns true exactly when its run contains a
    descriptor write that the backend reported successful, and it logs one
    diagnostic line when it returns false and none when it returns true. *)
Theorem setFileOwnerGroup_result_and_diagnostics
    `{B : Backend World} (w : World) (filePath ownerGroup : QString) :
  let o := run (setFileOwnerGroup filePath ownerGroup) w in
  retval o = existsb write_succeeded (trace o)
  /\ length (List.filter is_diagnostic (trace o))
     = if retval o then 0%nat else 1%nat.
Proof.
  intros o. subst o.
  destruct (setFileOwnerGroup_runs filePath ownerGroup w)
    as [sid | found sid on off r Hfound].
  - by split.
  - destruct (r =? ERROR_SUCCESS) eqn:Hr; simpl; rewrite Hr; by split.
Qed.

(** X2: setFileOwnerGroupPermissions returns true exactly when its run
    contains a descriptor write that the backend reported successful.  It
    fails without any diagnostic line exactly when the administrators SID
    could not be allocated or the DACL write returned
    [ERROR_ACCESS_DENIED]. *)
Theorem setFileOwnerGroupPermissions_result_and_silence
    `{B : Backend World} (w : World) (filePath : QString)
    (permissions : Permissions) :
  let o := run (setFileOwnerGroupPermissions filePath permissions) w in
  retval o = existsb write_succeeded (trace o)
  /\ negb (retval o) && negb (existsb is_diagnostic (trace o))
     = existsb silent_failure (trace o).
Proof.
  intros o. subst o.
  destruct (setFileOwnerGroupPermissions_runs filePath permissions w)
    as [r0 o0 sd0 Hr | o0 sd0 p0 | o0 sd0 b0 p0 r0 acl0 Hb Hr | o0 sd0 b0 p0 acl0 r0 Hb].
  - by split.
  - by split.
  - apply Z.eqb_neq in Hb. simpl. rewrite Hb. by split.
  - apply Z.eqb_neq in Hb.
    destruct (Z.eqb_spec r0 ERROR_ACCESS_DENIED) as [-> | Hne]; simpl; rewrite Hb.
    + by split.
    + apply Z.eqb_neq in Hne. rewrite Hne, !orb_false_r.
      split; [done|]. by rewrite andb_false_r.
Qed.

(** ** What the other two functions leave alone *)

Lemma Sim_frame_dacl (p : string) :
  frame (fun w : Sim.World => Sim.Dacl <$> Sim.files w !! p) mutates_dacl.
Proof.
  intros R c w. unfold handle. destruct c; simpl; try done.
  - unfold Sim.do_GetNamedSecurityInfo, Sim.alloc.
    repeat case_match; by simplify_eq/=.
  - unfold Sim.do_SetNamedSecurityInfo, Sim.has. intros Hinfo.
    rewrite Hinfo.
    destruct ObjectType; simpl; [done|].
    destruct (Sim.files w !! pObjectName) as [d|] eqn:Hd; simpl; [|done].
    repeat case_match; simplify_eq/=; try done.
    all: destruct (decide (pObjectName = p)) as [-> | Hne];
      [by rewrite lookup_insert_eq, Hd | by rewrite lookup_insert_ne].
  - unfold Sim.do_AllocateAndInitializeSid, Sim.alloc.
    repeat case_match; by simplify_eq/=.
  - unfold Sim.do_SetEntriesInAcl, Sim.alloc.
    repeat case_match; by simplify_eq/=.
  - unfold Sim.do_enablePrivilege. repeat case_match; by simplify_eq/=.
Qed.

(** X3: every descriptor write of setFileOwnerGroup names the given path,
    carries [OWNER_SECURITY_INFORMATION] only, no DACL, and as owner the SID
    that the lookup of the given name wrote; the function receives and
    releases no buffer.  On a backend where only a write carrying
    [DACL_SECURITY_INFORMATION] changes the DACL part, the DACL of every
    path is as before. *)
Theorem setFileOwnerGroup_keeps_dacl
    `{B : Backend World} {Obs} (dacl : World -> QString -> Obs)
    (w : World) (filePath ownerGroup : QString) :
  (forall p, frame (fun w => dacl w p) mutates_dacl) ->
  let o := run (setFileOwnerGroup filePath ownerGroup) w in
  (forall e, e ∈ trace o -> mutates_descriptor e = true ->
     exists found sid r,
       found <> 0
       /\ ELookupAccountName ownerGroup SECURITY_MAX_SID_SIZE MAX_PATH found sid
            ∈ trace o
       /\ e = ESetNamedSecurityInfo filePath SE_FILE_OBJECT
                OWNER_SECURITY_INFORMATION (Some sid) nullptr r)
  /\ allocations (trace o) = []
  /\ releases (trace o) = []
  /\ forall p, dacl (final o) p = dacl w p.
Proof.
  intros Hframe o. subst o.
  assert ((forall e,
             e ∈ trace (run (setFileOwnerGroup filePath ownerGroup) w) ->
             mutates_descriptor e = true ->
             exists found sid r,
               found <> 0
               /\ ELookupAccountName ownerGroup SECURITY_MAX_SID_SIZE MAX_PATH
                    found sid
                    ∈ trace (run (setFileOwnerGroup filePath ownerGroup) w)
               /\ e = ESetNamedSecurityInfo filePath SE_FILE_OBJECT
                        OWNER_SECURITY_INFORMATION (Some sid) nullptr r)
          /\ allocations (trace (run (setFileOwnerGroup filePath ownerGroup) w)) = []
          /\ releases (trace (run (setFileOwnerGroup filePath ownerGroup) w)) = []
          /\ forallb (fun e => negb (mutates_dacl e))
               (trace (run (setFileOwnerGroup filePath ownerGroup) w)) = true)
    as (Hwrites & Hnone & Hfree & Hkeeps).
  { destruct (setFileOwnerGroup_runs filePath ownerGroup w)
      as [sid | found sid on off r Hfound].
    - split; [intros e He Hw; in_run He; discriminate | done].
    - split; [|by destruct (r =? ERROR_SUCCESS)].
      intros e He Hw.
      assert (e = ESetNamedSecurityInfo filePath SE_FILE_OBJECT
                    OWNER_SECURITY_INFORMATION (Some sid) nullptr r) as ->.
      { destruct (r =? ERROR_SUCCESS); in_run He; done. }
      exists found, sid, r. split; [done|]. split; [|done].
      apply list_elem_of_here. }
  split; [exact Hwrites|]. split; [exact Hnone|]. split; [exact Hfree|].
  intros p. by apply (run_frame (fun w => dacl w p) mutates_dacl).
Qed.

Lemma setFileOwnerGroup_keeps_dacl_witness :
  Sim.Owner <$> Sim.files
    (final (run (setFileOwnerGroup Sim.report "Bob") (Sim.office Sim.Bob)))
    !! Sim.report
  = Some Sim.Bob
  /\ Sim.Dacl <$> Sim.files
       (final (run (setFileOwnerGroup Sim.report "Bob") (Sim.office Sim.Bob)))
       !! Sim.report
     = Sim.Dacl <$> Sim.files (Sim.office Sim.Bob) !! Sim.report.
Proof.
  split; [vm_compute; reflexivity|].
  apply (setFileOwnerGroup_keeps_dacl
           (fun (w : Sim.World) (p : QString) => Sim.Dacl <$> Sim.files w !! p)
           (Sim.office Sim.Bob) Sim.report "Bob").
  intros p. apply Sim_frame_dacl.
Defined.

(** X4: fileOwnerGroup only asks: its run contains no descriptor write, no
    privilege toggle and no release, and at most one diagnostic line.  On a
    backend where only descriptor writes change descriptors, every
    descriptor is as before. *)
Theorem fileOwnerGroup_only_reads
    `{B : Backend World} {Obs} (descriptor : World -> QString -> Obs)
    (w : World) (name : string) (filePath : QString) :
  (forall p, frame (fun w => descriptor w p) mutates_descriptor) ->
  let o := run (fileOwnerGroup name filePath) w in
  existsb mutates_descriptor (trace o) = false
  /\ existsb toggles_privilege (trace o) = false
  /\ releases (trace o) = []
  /\ (length (List.filter is_diagnostic (trace o)) <= 1)%nat
  /\ forall p, descriptor (final o) p = descriptor w p.
Proof.
  intros Hframe o. subst o.
  assert (existsb mutates_descriptor (trace (run (fileOwnerGroup name filePath) w))
          = false
          /\ existsb toggles_privilege (trace (run (fileOwnerGroup name filePath) w))
             = false
          /\ releases (trace (run (fileOwnerGroup name filePath) w)) = []
          /\ (length (List.filter is_diagnostic
                        (trace (run (fileOwnerGroup name filePath) w))) <= 1)%nat
          /\ forallb (fun e => negb (mutates_descriptor e))
               (trace (run (fileOwnerGroup name filePath) w)) = true)
    as (Hw & Ht & Hr & Hd & Hkeeps).
  { destruct (fileOwnerGroup_runs name filePath w); simpl; repeat split; lia. }
  repeat (split; [assumption|]).
  intros p. by apply (run_frame (fun w => descriptor w p) mutates_descriptor).
Qed.

Lemma fileOwnerGroup_only_reads_witness :
  Sim.files (final (run (fileOwnerGroup "" Sim.report) (Sim.office Sim.Alice)))
    !! Sim.report
  = Sim.files (Sim.office Sim.Alice) !! Sim.report.
Proof.
  apply (fileOwnerGroup_only_reads
           (fun (w : Sim.World) (p : QString) => Sim.files w !! p)
           (Sim.office Sim.Alice) "" Sim.report).
  intros p. apply Sim_frame_descriptor.
Defined.

Lemma fileOwnerGroup_first_call `{B : Backend World} (w : World)
    (name : string) (filePath : QString) :
  exists rest,
    trace (run (fileOwnerGroup name filePath) w)
    = event_of (GetNamedSecurityInfo filePath SE_FILE_OBJECT
                  OWNER_SECURITY_INFORMATION)
        (handle (GetNamedSecurityInfo filePath SE_FILE_OBJECT
                   OWNER_SECURITY_INFORMATION) w).1
      :: rest.
Proof.
  unfold fileOwnerGroup, call. cbn [mbind prog_bind bind].
  rewrite run_call. cbn [trace]. by eexists.
Qed.

(** X5: when [GetNamedSecurityInfo] returns an error for the path,
    fileOwnerGroup returns the null string whatever its name array held,
    logs one line that carries the error code, and does not attempt the
    reverse lookup. *)
Theorem fileOwnerGroup_no_descriptor
    `{B : Backend World} (w : World) (name : string) (filePath : QString) :
  (handle (GetNamedSecurityInfo filePath SE_FILE_OBJECT
             OWNER_SECURITY_INFORMATION) w).1.1.1 <> ERROR_SUCCESS ->
  let o := run (fileOwnerGroup name filePath) w in
  retval o = QString_null
  /\ exists code ownerSID sd,
       code <> ERROR_SUCCESS
       /\ trace o
          = [EGetNamedSecurityInfo filePath SE_FILE_OBJECT
               OWNER_SECURITY_INFORMATION code ownerSID sd;
             EqCritical [Q_FUNC_INFO_fileOwnerGroup;
                         LStr "GetSecurityInfo() failed:"; LNum code]].
Proof.
  intros Hfail o. subst o.
  destruct (fileOwnerGroup_first_call w name filePath) as [rest Hfirst].
  destruct (handle (GetNamedSecurityInfo filePath SE_FILE_OBJECT
                      OWNER_SECURITY_INFORMATION) w).1 as [[code o0] sd0].
  simpl in Hfail, Hfirst.
  pose proof (fileOwnerGroup_runs name filePath w) as Hrun.
  inversion Hrun as [r o1 sd1 Hr Ht Hv | o1 sd1 b written Hb Ht Hv
                     | o1 sd1 written Ht Hv].
  - split; [done|]. by exists r, o1, sd1.
  - rewrite <- Ht in Hfirst. simpl in Hfirst. congruence.
  - rewrite <- Ht in Hfirst. simpl in Hfirst. congruence.
Qed.

Lemma fileOwnerGroup_no_descriptor_witness :
  retval (run (fileOwnerGroup "left over" "C:\data\missing.xlsx")
            (Sim.office Sim.Alice)) = QString_null
  /\ exists code ownerSID sd,
       code <> ERROR_SUCCESS
       /\ trace (run (fileOwnerGroup "left over" "C:\data\missing.xlsx")
                   (Sim.office Sim.Alice))
          = [EGetNamedSecurityInfo "C:\data\missing.xlsx" SE_FILE_OBJECT
               OWNER_SECURITY_INFORMATION code ownerSID sd;
             EqCritical [Q_FUNC_INFO_fileOwnerGroup;
                         LStr "GetSecurityInfo() failed:"; LNum code]].
Proof.
  apply (fileOwnerGroup_no_descriptor (Sim.office Sim.Alice) "left over"
           "C:\data\missing.xlsx").
  vm_compute. discriminate.
Defined.

(** ** The permission mask as a function of the flag word *)

Lemma groupFlags_bits (i : Z) :
  0 <= i ->
  Z.testbit groupFlags i = (i =? 4) || (i =? 5) || (i =? 6).
Proof.
  intros Hi. change groupFlags with 112.
  destruct (Z.lt_ge_cases i 7) as [Hlt | Hge].
  - assert (i = 0 \/ i = 1 \/ i = 2 \/ i = 3 \/ i = 4 \/ i = 5 \/ i = 6)
      as Hcases by lia.
    destruct Hcases as [-> | [-> | [-> | [-> | [-> | [-> | ->]]]]]]; reflexivity.
  - rewrite Z.bits_above_log2 by (change (Z.log2 112) with 6; lia).
    symmetry. repeat (apply orb_false_iff; split); apply Z.eqb_neq; lia.
Qed.

Lemma ownerAccessPermissions_masked (permissions : Permissions) :
  ownerAccessPermissions (Z.land permissions groupFlags)
  = ownerAccessPermissions permissions.
Proof.
  rewrite !ownerAccessPermissions_bits, !Z.land_spec, !groupFlags_bits by lia.
  simpl. by rewrite !andb_true_r.
Qed.

Lemma ownerAccessPermissions_same_bits (p q : Permissions) :
  ownerAccessPermissions p = ownerAccessPermissions q ->
  Z.testbit p 6 = Z.testbit q 6
  /\ Z.testbit p 5 = Z.testbit q 5
  /\ Z.testbit p 4 = Z.testbit q 4.
Proof.
  rewrite !ownerAccessPermissions_bits.
  destruct (Z.testbit p 6), (Z.testbit p 5), (Z.testbit p 4),
    (Z.testbit q 6), (Z.testbit q 5), (Z.testbit q 4);
    intros H; vm_compute in H; try discriminate H; done.
Qed.

Lemma ownerAccessPermissions_eq_iff (p q : Permissions) :
  ownerAccessPermissions p = ownerAccessPermissions q
  <-> Z.land p groupFlags = Z.land q groupFlags.
Proof.
  split.
  - intros (H6 & H5 & H4)%ownerAccessPermissions_same_bits.
    apply Z.bits_inj'. intros i Hi.
    rewrite !Z.land_spec, groupFlags_bits by exact Hi.
    destruct (Z.eqb_spec i 4) as [-> | _]; [by rewrite H4|].
    destruct (Z.eqb_spec i 5) as [-> | _]; [by rewrite H5|].
    destruct (Z.eqb_spec i 6) as [-> | _]; [by rewrite H6|].
    by rewrite !andb_false_r.
  - intros H. by rewrite <- (ownerAccessPermissions_masked p), H,
      ownerAccessPermissions_masked.
Qed.

(** X6: the access mask computed for the owner entry depends on the group
    flags of the permission word and on nothing else: flags of the owner,
    user and other classes are ignored, and two words give the same mask
    exactly when they agree on ReadGroup, WriteGroup and ExeGroup. *)
Theorem ownerAccessPermissions_group_flags_only :
  (forall permissions : Permissions,
      ownerAccessPermissions (Z.land permissions groupFlags)
      = ownerAccessPermissions permissions)
  /\ (forall p q : Permissions,
        ownerAccessPermissions p = ownerAccessPermissions q
        <-> Z.land p groupFlags = Z.land q groupFlags).
Proof.
  split; [exact ownerAccessPermissions_masked | exact ownerAccessPermissions_eq_iff].
Qed.

Lemma ownerAccessPermissions_group_flags_only_witness :
  ownerAccessPermissions 0x4444 = ownerAccessPermissions ReadGroup.
Proof.
  apply (proj2 ownerAccessPermissions_group_flags_only 0x4444 ReadGroup).
  reflexivity.
Defined.

(** X7: the mask of a union of permission words is the union of their masks
    and the mask of an intersection is the intersection of their masks. *)
Theorem ownerAccessPermissions_union_intersection (p q : Permissions) :
  ownerAccessPermissions (Z.lor p q)
  = Z.lor (ownerAccessPermissions p) (ownerAccessPermissions q)
  /\ ownerAccessPermissions (Z.land p q)
     = Z.land (ownerAccessPermissions p) (ownerAccessPermissions q).
Proof.
  rewrite !ownerAccessPermissions_bits, !Z.lor_spec, !Z.land_spec.
  by destruct (Z.testbit p 6), (Z.testbit p 5), (Z.testbit p 4),
    (Z.testbit q 6), (Z.testbit q 5), (Z.testbit q 4).
Qed.

(** X8: whatever the permission word, the owner entry's mask fits a DWORD,
    lies within generic-read, generic-write and generic-execute, never
    contains [GENERIC_ALL], and is zero exactly when no group flag is set. *)
Theorem ownerAccessPermissions_range (permissions : Permissions) :
  0 <= ownerAccessPermissions permissions < 2 ^ 32
  /\ Z.land (ownerAccessPermissions permissions)
       (Z.lor GENERIC_READ (Z.lor GENERIC_WRITE GENERIC_EXECUTE))
     = ownerAccessPermissions permissions
  /\ Z.land (ownerAccessPermissions permissions) GENERIC_ALL = 0
  /\ (ownerAccessPermissions permissions = 0
      <-> Z.land permissions groupFlags = 0).
Proof.
  split; [|split; [|split]].
  - rewrite ownerAccessPermissions_bits.
    destruct (Z.testbit permissions 6), (Z.testbit permissions 5),
      (Z.testbit permissions 4); vm_compute; split; congruence.
  - rewrite ownerAccessPermissions_bits.
    by destruct (Z.testbit permissions 6), (Z.testbit permissions 5),
      (Z.testbit permissions 4).
  - rewrite ownerAccessPermissions_bits.
    by destruct (Z.testbit permissions 6), (Z.testbit permissions 5),
      (Z.testbit permissions 4).
  - change 0 with (ownerAccessPermissions 0) at 1.
    rewrite ownerAccessPermissions_eq_iff. by rewrite Z.land_0_l.
Qed.

Lemma ownerAccessPermissions_range_witness :
  ownerAccessPermissions 0x7707 = 0.
Proof.
  apply (proj2 (proj2 (proj2 (proj2 (ownerAccessPermissions_range 0x7707))))).
  reflexivity.
Defined.

Lemma setFileOwnerGroupPermissions_same_mask `{B : Backend World} (w : World)
    (filePath : QString) (p q : Permissions) :
  ownerAccessPermissions p = ownerAccessPermissions q ->
  run (setFileOwnerGroupPermissions filePath p) w
  = run (setFileOwnerGroupPermissions filePath q) w.
Proof.
  intros Hmask.
  unfold setFileOwnerGroupPermissions, call. cbn [mbind prog_bind bind].
  rewrite !run_call.
  destruct (handle _ w) as [[[r o] sd] w1]. cbn [fst snd].
  destruct (r =? ERROR_SUCCESS); cbn [negb]; [|reflexivity].
  cbn [bind]. rewrite !run_call.
  destruct (handle _ w1) as [[b a] w2]. cbn [fst snd].
  destruct (b =? 0); [reflexivity|].
  unfold explicitAccess. rewrite Hmask. reflexivity.
Qed.

(** X9: two permission words that agree on the group flags make
    setFileOwnerGroupPermissions behave identically on every backend: same
    calls with the same arguments, same result, same final world.  Flags of
    the owner, user and other classes have no effect. *)
Theorem setFileOwnerGroupPermissions_group_flags_only
    `{B : Backend World} (w : World) (filePath : QString) (p q : Permissions) :
  Z.land p groupFlags = Z.land q groupFlags ->
  run (setFileOwnerGroupPermissions filePath p) w
  = run (setFileOwnerGroupPermissions filePath q) w.
Proof.
  intros H. by apply setFileOwnerGroupPermissions_same_mask,
    ownerAccessPermissions_eq_iff.
Qed.

Lemma setFileOwnerGroupPermissions_group_flags_only_witness :
  run (setFileOwnerGroupPermissions Sim.report 0x7747) (Sim.office Sim.Alice)
  = run (setFileOwnerGroupPermissions Sim.report ReadGroup) (Sim.office Sim.Alice).
Proof.
  apply (setFileOwnerGroupPermissions_group_flags_only
           (Sim.office Sim.Alice) Sim.report 0x7747 ReadGroup).
  reflexivity.
Defined.

(** ** Application data directories *)

Section Folders.
Import KnownFolders.
Context `{S : Shell World}.

Lemma shell_run_ask {A R} (c : ShellCall R) (k : R -> shell A) (w : World) :
  shell_run (Ask c k) w =
  mkShellOutcome (value (shell_run (k (answer c w).1) (answer c w).2))
                 (after (shell_run (k (answer c w).1) (answer c w).2))
                 (shell_event_of c (answer c w).1
                    :: calls (shell_run (k (answer c w).1) (answer c w).2)).
Proof. simpl. by destruct (answer c w). Qed.

(** Every run of [windowsConfigPath]: one lookup; on [S_OK] the string is
    copied and the buffer given back; on anything else the result is
    empty. *)
Lemma windowsConfigPath_runs (folderId : KNOWNFOLDERID) (w : World) :
  exists hr path contents,
    value (shell_run (windowsConfigPath folderId) w)
    = (if hr =? S_OK then contents else QString_null)
    /\ calls (shell_run (windowsConfigPath folderId) w)
       = ESHGetKnownFolderPath folderId KF_FLAG_DEFAULT hr path contents
         :: (if hr =? S_OK then [ECoTaskMemFree path] else []).
Proof.
  unfold windowsConfigPath, ask. cbn [mbind shell_mbind shell_bind].
  rewrite shell_run_ask.
  destruct (answer _ w) as [[[hr path] contents] w1]. cbn [fst snd value calls].
  exists hr, path, contents.
  destruct (hr =? S_OK); simpl; [|done].
  by destruct (answer _ w1).
Qed.

Lemma personalAppDataPath_runs (w : World) :
  exists hr path contents,
    value (shell_run personalAppDataPath w)
    = (((if hr =? S_OK then contents else QString_null) +:+ separator)
         +:+ "Veyon") +:+ separator
    /\ calls (shell_run personalAppDataPath w)
       = ESHGetKnownFolderPath FOLDERID_RoamingAppData KF_FLAG_DEFAULT hr path
           contents
         :: (if hr =? S_OK then [ECoTaskMemFree path] else []).
Proof.
  unfold personalAppDataPath, windowsConfigPath, ask.
  cbn [mbind shell_mbind shell_bind].
  rewrite shell_run_ask.
  destruct (answer _ w) as [[[hr path] contents] w1]. cbn [fst snd value calls].
  exists hr, path, contents.
  destruct (hr =? S_OK); simpl; [|done].
  by destruct (answer _ w1).
Qed.

Lemma globalAppDataPath_runs (w : World) :
  exists hr path contents,
    value (shell_run globalAppDataPath w)
    = (((if hr =? S_OK then contents else QString_null) +:+ separator)
         +:+ "Veyon") +:+ separator
    /\ calls (shell_run globalAppDataPath w)
       = ESHGetKnownFolderPath FOLDERID_ProgramData KF_FLAG_DEFAULT hr path
           contents
         :: (if hr =? S_OK then [ECoTaskMemFree path] else []).
Proof.
  unfold globalAppDataPath, windowsConfigPath, ask.
  cbn [mbind shell_mbind shell_bind].
  rewrite shell_run_ask.
  destruct (answer _ w) as [[[hr path] contents] w1]. cbn [fst snd value calls].
  exists hr, path, contents.
  destruct (hr =? S_OK); simpl; [|done].
  by destruct (answer _ w1).
Qed.

(** X10: personalAppDataPath asks the shell once for the roaming
    application-data folder and globalAppDataPath once for the program-data
    folder, both with [KF_FLAG_DEFAULT].  On [S_OK] the result is the folder
    followed by "\Veyon\"; on any other answer the failure is not reported
    and the result is the bare "\Veyon\".  The result is never empty. *)
Theorem appDataPath_result (w : World) :
  (exists hr path contents,
      List.filter is_lookup (calls (shell_run personalAppDataPath w))
      = [ESHGetKnownFolderPath FOLDERID_RoamingAppData KF_FLAG_DEFAULT
           hr path contents]
      /\ value (shell_run personalAppDataPath w)
         = (if hr =? S_OK then contents else "") +:+ "\Veyon\")
  /\ (exists hr path contents,
        List.filter is_lookup (calls (shell_run globalAppDataPath w))
        = [ESHGetKnownFolderPath FOLDERID_ProgramData KF_FLAG_DEFAULT
             hr path contents]
        /\ value (shell_run globalAppDataPath w)
           = (if hr =? S_OK then contents else "") +:+ "\Veyon\")
  /\ value (shell_run personalAppDataPath w) <> ""
  /\ value (shell_run globalAppDataPath w) <> "".
Proof.
  assert (forall s : string, s +:+ "\Veyon\" <> "") as Hne
    by (intros [|c s]; discriminate).
  assert (forall s : string,
            ((s +:+ separator) +:+ "Veyon") +:+ separator = s +:+ "\Veyon\")
    as Happ.
  { intros s. induction s as [|c s IH]; [done|].
    change (String c (((s +:+ separator) +:+ "Veyon") +:+ separator)
            = String c (s +:+ "\Veyon\")).
    by rewrite IH. }
  destruct (personalAppDataPath_runs w) as (hr & path & contents & Hv & Hc).
  destruct (globalAppDataPath_runs w) as (hr' & path' & contents' & Hv' & Hc').
  rewrite Hv, Hv', Hc, Hc', !Happ.
  split; [|split; [|split; apply Hne]].
  - exists hr, path, contents. split; [by destruct (hr =? S_OK) | done].
  - exists hr', path', contents'. split; [by destruct (hr' =? S_OK) | done].
Qed.

(** X11: in every run of windowsConfigPath, personalAppDataPath and
    globalAppDataPath the buffers passed to [CoTaskMemFree] are exactly the
    buffers [SHGetKnownFolderPath] returned with [S_OK], each once: the path
    buffer is released on success and nothing is released after a failed
    lookup. *)
Theorem appDataPath_buffer_released (w : World) (folderId : KNOWNFOLDERID) :
  concat (map freed (calls (shell_run (windowsConfigPath folderId) w)))
  = concat (map obtained (calls (shell_run (windowsConfigPath folderId) w)))
  /\ concat (map freed (calls (shell_run personalAppDataPath w)))
     = concat (map obtained (calls (shell_run personalAppDataPath w)))
  /\ concat (map freed (calls (shell_run globalAppDataPath w)))
     = concat (map obtained (calls (shell_run globalAppDataPath w))).
Proof.
  destruct (windowsConfigPath_runs folderId w) as (hr & path & contents & _ & ->).
  destruct (personalAppDataPath_runs w) as (hr1 & path1 & contents1 & _ & ->).
  destruct (globalAppDataPath_runs w) as (hr2 & path2 & contents2 & _ & ->).
  simpl. by destruct (hr =? S_OK), (hr1 =? S_OK), (hr2 =? S_OK).
Qed.

End Folders.

(** The two directories on the reference shell, with and without known
    folders. *)
Example appDataPath_examples :
  KnownFolders.value
    (KnownFolders.shell_run KnownFolders.personalAppDataPath KnownFolders.workstation)
  = "C:\Users\alice\AppData\Roaming\Veyon\"
  /\ KnownFolders.value
       (KnownFolders.shell_run KnownFolders.globalAppDataPath KnownFolders.workstation)
     = "C:\ProgramData\Veyon\"
  /\ KnownFolders.live
       (KnownFolders.after
          (KnownFolders.shell_run KnownFolders.globalAppDataPath KnownFolders.workstation))
     = []
  /\ KnownFolders.value
       (KnownFolders.shell_run KnownFolders.personalAppDataPath KnownFolders.bare)
     = "\Veyon\".
Proof. repeat split; vm_compute; reflexivity. Qed.
